(** * octopus: half-hourly electricity prices, stored, queried and merged

    A shallow embedding of [src/octopus.py]: the timestamp conversion
    ([to_timezone]), the ingestion into the MySQL table ([insert_price]),
    the threshold query with the merging of adjacent half hours
    ([get_hours_below_price]), the HTML rendering ([format_hours]) and the
    part of [main] that chains them.

    Python values are modelled as the code uses them: [str] as [string],
    the rows of [cur.fetchall()] as pairs of [datetime] records, the JSON
    answer of the tariff API as a small tree, exceptions as a [result]
    type.  What lives outside the repository (the HTTP call, the zone
    database of pytz, the wall clock) enters as an argument. *)

From stdpp Require Import base option list strings gmap sorting.
From Stdlib Require Import ZArith QArith Qcanon Ascii String DecimalString Lia.

Local Open Scope string_scope.
Local Open Scope list_scope.
Local Open Scope Z_scope.

(** ** Python runtime: exceptions and string slices *)

Module Py.

(** The exceptions the modelled code can raise. *)
Inductive exn : Type :=
| IndexError
| KeyError
| TypeError
| ValueError
| OverflowError
| ConnectionError       (* requests.exceptions.ConnectionError and kin *)
| JSONDecodeError       (* requests.exceptions.JSONDecodeError *)
| UnknownTimeZoneError  (* pytz.exceptions.UnknownTimeZoneError *)
| ProgrammingError.     (* MySQLdb.ProgrammingError / OperationalError *)

Inductive result (A : Type) : Type :=
| Ok (a : A)
| Raise (e : exn).
Arguments Ok {A} a.
Arguments Raise {A} e.

Definition bind {A B} (m : result A) (k : A → result B) : result B :=
  match m with
  | Ok a => k a
  | Raise e => Raise e
  end.

(** [o] raising [e] when it is [None]. *)
Definition or_raise {A} (e : exn) (o : option A) : result A :=
  match o with
  | Some a => Ok a
  | None => Raise e
  end.

(** [for x in xs: acc = body(acc, x)], stopping at the first exception. *)
Fixpoint for_each {A B} (body : B → A → result B) (xs : list A) (acc : B)
  : result B :=
  match xs with
  | [] => Ok acc
  | x :: xs' => bind (body acc x) (for_each body xs')
  end.

(** [s[0:-n]] for [n > 0]: the string without its last [n] characters
    (empty when [s] is shorter). *)
Definition drop_last (n : nat) (s : string) : string :=
  String.substring 0 (String.length s - n)%nat s.

(** [s.split(' ')[0]]: the characters before the first blank. *)
Fixpoint before_blank (s : string) : string :=
  match s with
  | EmptyString => EmptyString
  | String c s' => if Ascii.eqb c " "%char then EmptyString
                   else String c (before_blank s')
  end.

End Py.

Global Instance result_bind : MBind Py.result := λ A B k m, Py.bind m k.
Global Instance result_ret : MRet Py.result := @Py.Ok.

(** ** datetime.datetime *)

(** A naive [datetime] without microseconds: what a MySQL [DATETIME] column
    holds and what the API's timestamps denote. *)
Record datetime : Type := mkdatetime {
  year : Z; month : Z; day : Z;
  hour : Z; minute : Z; second : Z
}.

Global Instance datetime_eq_dec : EqDecision datetime.
Proof. solve_decision. Defined.

Definition dt_tuple (d : datetime) : Z * Z * Z * Z * Z * Z :=
  (year d, month d, day d, hour d, minute d, second d).

Definition dt_of_tuple (t : Z * Z * Z * Z * Z * Z) : datetime :=
  let '(y, mo, d, h, mi, s) := t in mkdatetime y mo d h mi s.

Global Instance datetime_countable : Countable datetime :=
  inj_countable' dt_tuple dt_of_tuple
    (λ d, match d with mkdatetime _ _ _ _ _ _ => eq_refl end).

(** The comparison of two datetimes: field by field, as Python compares the
    tuples and as MySQL orders [DATETIME] values. *)
Definition dt_compare (a b : datetime) : comparison :=
  match year a ?= year b with
  | Eq =>
    match month a ?= month b with
    | Eq =>
      match day a ?= day b with
      | Eq =>
        match hour a ?= hour b with
        | Eq =>
          match minute a ?= minute b with
          | Eq => second a ?= second b
          | c => c
          end
        | c => c
        end
      | c => c
      end
    | c => c
    end
  | c => c
  end.

Definition dt_lt (a b : datetime) : Prop := dt_compare a b = Lt.
Definition dt_le (a b : datetime) : Prop := dt_compare a b ≠ Gt.

Global Instance dt_lt_dec a b : Decision (dt_lt a b).
Proof. unfold dt_lt. apply _. Defined.
Global Instance dt_le_dec a b : Decision (dt_le a b).
Proof. unfold dt_le. apply _. Defined.

(** One decimal digit, and the zero-padded fields of [%02d] and [%04d]. *)
Definition digit (n : Z) : ascii :=
  ascii_of_nat (48 + Z.to_nat (n mod 10)).

Definition zfill2 (n : Z) : string :=
  String (digit (n / 10)) (String (digit n) EmptyString).

Definition zfill4 (n : Z) : string :=
  String (digit (n / 1000)) (String (digit (n / 100)) (zfill2 n)).

(** [str(d)], which is [d.isoformat(sep=' ')], and the equal
    [d.strftime('%Y-%m-%d %H:%M:%S')]: ["YYYY-MM-DD HH:MM:SS"]. *)
Definition str_date (d : datetime) : string :=
  zfill4 (year d) +:+ "-" +:+ zfill2 (month d) +:+ "-" +:+ zfill2 (day d).

Definition str_datetime (d : datetime) : string :=
  str_date d +:+ " " +:+ zfill2 (hour d) +:+ ":" +:+ zfill2 (minute d)
    +:+ ":" +:+ zfill2 (second d).

(** ** Calendar arithmetic of datetime *)

(** The proleptic Gregorian calendar as [datetime] computes it: the
    functions [_is_leap], [_days_before_year], [_days_in_month],
    [_days_before_month], [_ymd2ord] and [_ord2ymd] of the library, and the
    addition of a [timedelta]. *)

Module Calendar.
Import Py.

Definition is_leap (y : Z) : bool :=
  (y mod 4 =? 0) && (negb (y mod 100 =? 0) || (y mod 400 =? 0)).

Definition DAYS_IN_MONTH : list Z :=
  [-1; 31; 28; 31; 30; 31; 30; 31; 31; 30; 31; 30; 31].

Definition DAYS_BEFORE_MONTH : list Z :=
  [-1; 0; 31; 59; 90; 120; 151; 181; 212; 243; 273; 304; 334].

Definition days_before_year (y : Z) : Z :=
  let y := y - 1 in y * 365 + y / 4 - y / 100 + y / 400.

Definition days_in_month (y m : Z) : Z :=
  if (m =? 2) && is_leap y then 29
  else nth (Z.to_nat m) DAYS_IN_MONTH (-1).

Definition days_before_month (y m : Z) : Z :=
  nth (Z.to_nat m) DAYS_BEFORE_MONTH (-1)
  + (if (2 <? m) && is_leap y then 1 else 0).

(** The ordinal of a date: 1 for 0001-01-01. *)
Definition ymd2ord (y m d : Z) : Z :=
  days_before_year y + days_before_month y m + d.

Definition DI400Y : Z := 146097.
Definition DI100Y : Z := 36524.
Definition DI4Y : Z := 1461.
Definition MAXORDINAL : Z := 3652059.

(** The date of an ordinal, by the 400, 100, 4 and 1 year cycles. *)
Definition ord2ymd (n : Z) : Z * Z * Z :=
  let n := n - 1 in
  let n400 := n / DI400Y in let n := n mod DI400Y in
  let y := n400 * 400 + 1 in
  let n100 := n / DI100Y in let n := n mod DI100Y in
  let n4 := n / DI4Y in let n := n mod DI4Y in
  let n1 := n / 365 in let n := n mod 365 in
  let y := y + n100 * 100 + n4 * 4 + n1 in
  if (n1 =? 4) || (n100 =? 4) then (y - 1, 12, 31)
  else
    let leapyear := (n1 =? 3) && (negb (n4 =? 24) || (n100 =? 3)) in
    let m := Z.shiftr (n + 50) 5 in
    let preceding :=
      nth (Z.to_nat m) DAYS_BEFORE_MONTH (-1)
      + (if (2 <? m) && leapyear then 1 else 0) in
    if n <? preceding then
      let m := m - 1 in
      let preceding :=
        preceding - (nth (Z.to_nat m) DAYS_IN_MONTH (-1)
                     + (if (m =? 2) && leapyear then 1 else 0)) in
      (y, m, n - preceding + 1)
    else (y, m, n - preceding + 1).

(** The two halves of [ord2ymd]: the year with the day of the year left
    over (and the two flags the function derives on the way), then the month
    and the day. *)
Definition year_part (n : Z) : Z * Z * bool * bool :=
  let n400 := n / DI400Y in let n := n mod DI400Y in
  let y := n400 * 400 + 1 in
  let n100 := n / DI100Y in let n := n mod DI100Y in
  let n4 := n / DI4Y in let n := n mod DI4Y in
  let n1 := n / 365 in let n := n mod 365 in
  let y := y + n100 * 100 + n4 * 4 + n1 in
  (y, n, (n1 =? 4) || (n100 =? 4),
   (n1 =? 3) && (negb (n4 =? 24) || (n100 =? 3))).

Definition month_part (leapyear : bool) (n : Z) : Z * Z :=
  let m := Z.shiftr (n + 50) 5 in
  let preceding :=
    nth (Z.to_nat m) DAYS_BEFORE_MONTH (-1)
    + (if (2 <? m) && leapyear then 1 else 0) in
  if n <? preceding then
    let m := m - 1 in
    let preceding :=
      preceding - (nth (Z.to_nat m) DAYS_IN_MONTH (-1)
                   + (if (m =? 2) && leapyear then 1 else 0)) in
    (m, n - preceding + 1)
  else (m, n - preceding + 1).

(** The field ranges that the [datetime] constructor checks. *)
Definition valid_datetime (d : datetime) : bool :=
  (1 <=? year d) && (year d <=? 9999) &&
  (1 <=? month d) && (month d <=? 12) &&
  (1 <=? day d) && (day d <=? days_in_month (year d) (month d)) &&
  (0 <=? hour d) && (hour d <=? 23) &&
  (0 <=? minute d) && (minute d <=? 59) &&
  (0 <=? second d) && (second d <=? 59).

(** The fields of a datetime that two and four digits can hold. *)
Definition printable (d : datetime) : Prop :=
  0 ≤ year d < 10000 ∧ 0 ≤ month d < 100 ∧ 0 ≤ day d < 100 ∧
  0 ≤ hour d < 100 ∧ 0 ≤ minute d < 100 ∧ 0 ≤ second d < 100.

(** Seconds since the midnight before ordinal 1. *)
Definition to_seconds (d : datetime) : Z :=
  (ymd2ord (year d) (month d) (day d)) * 86400
  + hour d * 3600 + minute d * 60 + second d.

(** [d + timedelta(seconds=delta)]: through the ordinal and the second of
    the day, [OverflowError] outside the years 1 to 9999. *)
Definition add_seconds (d : datetime) (delta : Z) : result datetime :=
  let total := to_seconds d + delta in
  let days := total / 86400 in
  let secs := total mod 86400 in
  if (0 <? days) && (days <=? MAXORDINAL) then
    let '(y, mo, dd) := ord2ymd days in
    Ok (mkdatetime y mo dd (secs / 3600) ((secs mod 3600) / 60)
                   ((secs mod 3600) mod 60))
  else Raise OverflowError.

End Calendar.

(** ** Reading timestamps *)

Module Parse.
Import Py Calendar.

Definition digit_value (c : ascii) : option Z :=
  let n := nat_of_ascii c in
  if decide (48 ≤ n ≤ 57)%nat then Some (Z.of_nat n - 48) else None.

(** A run of decimal digits, and nothing else, as a number. *)
Fixpoint digits_from (acc : Z) (s : string) : option Z :=
  match s with
  | EmptyString => Some acc
  | String c s' => v ← digit_value c; digits_from (acc * 10 + v) s'
  end.

Definition parse_digits (s : string) : option Z :=
  match s with
  | EmptyString => None
  | _ => digits_from 0 s
  end.

Definition char_is (i : nat) (c : ascii) (s : string) : option unit :=
  if decide (String.get i s = Some c) then Some () else None.

(** ["YYYY-MM-DD"], any one character as separator, ["HH:MM:SS"]: nineteen
    characters read as six fields (ranges not checked). *)
Definition parse_civil (s : string) : option datetime :=
  (if decide (String.length s = 19%nat) then Some () else None);;
  y ← parse_digits (String.substring 0 4 s);
  char_is 4 "-" s;;
  mo ← parse_digits (String.substring 5 2 s);
  char_is 7 "-" s;;
  d ← parse_digits (String.substring 8 2 s);
  h ← parse_digits (String.substring 11 2 s);
  char_is 13 ":" s;;
  mi ← parse_digits (String.substring 14 2 s);
  char_is 16 ":" s;;
  sec ← parse_digits (String.substring 17 2 s);
  Some (mkdatetime y mo d h mi sec).

(** [datetime.fromisoformat] on the timestamps of the tariff API, which
    [to_timezone] hands over as ["YYYY-MM-DDTHH:MM:SS+00:00"]: an aware
    datetime in UTC, of which the fields are kept.  The other spellings that
    Python reads (no seconds, fractions of a second, another offset) do not
    occur in the API's answers and are not modelled: they end in
    [ValueError] here, like the strings Python rejects. *)
Definition fromisoformat (s : string) : result datetime :=
  match parse_civil (String.substring 0 19 s) with
  | Some d =>
    if decide (String.substring 19 (String.length s - 19) s = "+00:00")
    then if valid_datetime d then Ok d else Raise ValueError
    else Raise ValueError
  | None => Raise ValueError
  end.

(** The [DATETIME] value MySQL stores for a quoted literal
    ["YYYY-MM-DD HH:MM:SS"]; a text it cannot read becomes the zero date
    (with a warning) under [INSERT IGNORE]. *)
Definition mysql_datetime (s : string) : datetime :=
  match parse_civil s with
  | Some d => if valid_datetime d then d else mkdatetime 0 0 0 0 0 0
  | None => mkdatetime 0 0 0 0 0 0
  end.

End Parse.

(** ** pytz: zones and the conversion from UTC *)

Module Pytz.
Import Py Calendar.

(** One entry of a zone's [_transition_info]. *)
Record ttinfo : Type := mkttinfo {
  utcoffset : Z;          (* seconds east of UTC *)
  dst : Z;                (* of which daylight saving *)
  tzname : string
}.

(** A [StaticTzInfo] has one offset; a [DstTzInfo] has the UTC instants of
    its transitions, ascending, and the offset in force from each. *)
Inductive tzinfo : Type :=
| StaticTzInfo (info : ttinfo)
| DstTzInfo (utc_transition_times : list datetime)
            (transition_info : list ttinfo).

(** [bisect_right(a, x)] on an ascending list: how many entries are at most
    [x]. *)
Fixpoint bisect_right (a : list datetime) (x : datetime) : nat :=
  match a with
  | [] => 0
  | t :: a' => if decide (dt_le t x) then S (bisect_right a' x) else 0
  end.

(** The entry in force at the UTC instant [d]:
    [self._transition_info[max(0, bisect_right(times, d) - 1)]]. *)
Definition info_at (tz : tzinfo) (d : datetime) : result ttinfo :=
  match tz with
  | StaticTzInfo info => Ok info
  | DstTzInfo times infos =>
    or_raise IndexError (infos !! pred (bisect_right times d))
  end.

(** [tz.fromutc(d)]: the civil time in the zone, [d + inf[0]]. *)
Definition fromutc (tz : tzinfo) (d : datetime) : result datetime :=
  inf ← info_at tz d;
  add_seconds d (utcoffset inf).

(** An excerpt of the Europe/London table of the zone database: local mean
    time, Greenwich time since 1847, and the summer-time changes of 2020 to
    2022 (01:00 UTC on the last Sunday of March and of October). *)
Definition GMT : ttinfo := mkttinfo 0 0 "GMT".
Definition BST : ttinfo := mkttinfo 3600 3600 "BST".

Definition Europe_London : tzinfo :=
  DstTzInfo
    [mkdatetime 1 1 1 0 0 0;       mkdatetime 1847 12 1 0 1 15;
     mkdatetime 2020 3 29 1 0 0;   mkdatetime 2020 10 25 1 0 0;
     mkdatetime 2021 3 28 1 0 0;   mkdatetime 2021 10 31 1 0 0;
     mkdatetime 2022 3 27 1 0 0;   mkdatetime 2022 10 30 1 0 0]
    [mkttinfo (-60) 0 "LMT"; GMT; BST; GMT; BST; GMT; BST; GMT].

(** A zone database that knows this one zone. *)
Definition london_only (name : string) : option tzinfo :=
  if decide (name = "Europe/London") then Some Europe_London else None.

End Pytz.

(** ** The merging loop of get_hours_below_price *)

Module Merger.
Import Py.

(** A row of the query, [(from_period, to_period)], and after
    [list(hour)] a two-element list. *)
Definition period : Type := datetime * datetime.

(** The body of [for hour in hours[1:]]:
    [if hour[0] == continuous_hours[-1][1]: continuous_hours[-1][1] = hour[1]]
    [else: continuous_hours.append(list(hour))]. *)
Definition concat_step (continuous_hours : list period) (hour : period)
  : result (list period) :=
  cur ← or_raise IndexError (last continuous_hours);
  if decide (hour.1 = cur.2)
  then Ok (alter (λ c : period, (c.1, hour.2))
                 (pred (List.length continuous_hours)) continuous_hours)
  else Ok (continuous_hours ++ [hour]).

(** [continuous_hours = [list(hours[0])]] followed by the loop. *)
Definition concat_hours (hours : list period) : result (list period) :=
  first ← or_raise IndexError (head hours);
  for_each concat_step (tail hours) [first].

(** [[str(h[0])[0:-3], str(h[1])[0:-3]]]: hour and minute, no seconds. *)
Definition to_minutes (h : period) : string * string :=
  (drop_last 3 (str_datetime h.1), drop_last 3 (str_datetime h.2)).

(** Lines 100 to 109: [if not hours: return []] and the merging loop; the
    value is [continuous_hours] before its timestamps become strings. *)
Definition merged_intervals (hours : list period) : result (list period) :=
  match hours with
  | [] => Ok []
  | _ => concat_hours hours
  end.

(** From [if not hours] to the [return] of [get_hours_below_price], on the
    rows [hours] that the query fetched. *)
Definition merge_hours (hours : list period) : result (list (string * string)) :=
  continuous_hours ← merged_intervals hours;
  Ok (map to_minutes continuous_hours).

(** The merger as the specification words it: one scan that carries the
    interval being built, extends it while the next pair starts where it
    ends, and otherwise closes it and opens a new one. *)
Fixpoint scan (cur : period) (rest : list period) : list period :=
  match rest with
  | [] => [cur]
  | p :: rest' =>
    if decide (p.1 = cur.2) then scan (cur.1, p.2) rest'
    else cur :: scan p rest'
  end.

Definition merge_spec (hours : list period) : list period :=
  match hours with
  | [] => []
  | p :: rest => scan p rest
  end.

(** Each period ends where the next one starts. *)
Fixpoint contiguous (hours : list period) : Prop :=
  match hours with
  | p :: ((q :: _) as rest) => p.2 = q.1 ∧ contiguous rest
  | _ => True
  end.

(** No period ends where the next one starts. *)
Fixpoint non_contiguous (hours : list period) : Prop :=
  match hours with
  | p :: ((q :: _) as rest) => p.2 ≠ q.1 ∧ non_contiguous rest
  | _ => True
  end.

(** Strictly ascending by [from], each [from] before its [to], and no
    period reaching into the next one. *)
Fixpoint ascending_disjoint (hours : list period) : Prop :=
  match hours with
  | [] => True
  | p :: rest =>
    dt_lt p.1 p.2 ∧
    match rest with
    | q :: _ => dt_lt p.1 q.1 ∧ dt_le p.2 q.1
    | [] => True
    end ∧ ascending_disjoint rest
  end.

(** A timestamp on a whole minute, as the half hours of the tariff are. *)
Definition whole_minute (d : datetime) : Prop :=
  Calendar.valid_datetime d = true ∧ second d = 0.

(** Sample inputs: whole minutes of one day, and three mornings of
    21 February 2021 (all touching; none touching; the first two touching). *)
Definition at_time (y mo d h mi : Z) : datetime := mkdatetime y mo d h mi 0.

Definition morning (h mi : Z) : datetime := at_time 2021 2 21 h mi.

Definition hours_touching : list period :=
  [(morning 8 0, morning 8 30); (morning 8 30, morning 9 0);
   (morning 9 0, morning 9 30)].

Definition hours_apart : list period :=
  [(morning 8 0, morning 8 30); (morning 9 0, morning 9 30);
   (morning 10 0, morning 10 30)].

Definition hours_mixed : list period :=
  [(morning 8 0, morning 8 30); (morning 8 30, morning 9 0);
   (morning 10 0, morning 10 30)].

End Merger.

(** ** octopus.py *)

Module Octopus.
Import Py Calendar Parse Pytz Merger.

(** *** The values of [resp.json()] *)

#[local] Set Warnings "-register-all".

Inductive json : Type :=
| JNull
| JBool (b : bool)
| JNum (q : Qc)
| JStr (s : string)
| JList (items : list json)
| JDict (members : list (string * json)).

(** [x[key]] for a string [key]: a dict member or [KeyError]; every other
    value refuses a string index with [TypeError]. *)
Fixpoint assoc (key : string) (members : list (string * json)) : option json :=
  match members with
  | [] => None
  | (k, v) :: rest => if decide (k = key) then Some v else assoc key rest
  end.

Definition getitem (x : json) (key : string) : result json :=
  match x with
  | JDict members => or_raise KeyError (assoc key members)
  | _ => Raise TypeError
  end.

Fixpoint chars (s : string) : list json :=
  match s with
  | EmptyString => []
  | String c s' => JStr (String c EmptyString) :: chars s'
  end.

(** [for p in x]: the items of a list, the keys of a dict, the characters
    of a string; [TypeError] for the rest. *)
Definition iterate (x : json) : result (list json) :=
  match x with
  | JList items => Ok items
  | JDict members => Ok (map (λ m, JStr m.1) members)
  | JStr s => Ok (chars s)
  | _ => Raise TypeError
  end.

(** The argument of [to_timezone] must be a [str]: [t[:-1] + '+00:00']
    is a [TypeError] for every other JSON value. *)
Definition as_str (x : json) : result string :=
  match x with
  | JStr s => Ok s
  | _ => Raise TypeError
  end.

(** *** What the program does not own *)

(** What [requests.get] meets: no response at all, or a response with a
    status and a body, [None] for a body that is not JSON. *)
Inductive http_outcome : Type :=
| ConnectionFailed
| Response (status_code : Z) (body : option json).

Record world : Type := mkworld {
  (** [pytz.timezone(name)], [None] for an unknown name *)
  zones : string → option tzinfo;
  (** [requests.get(url, auth=(api_key, ''))] *)
  requests_get : string → string → http_outcome;
  (** the n-th reading of [datetime.datetime.utcnow()] *)
  utcnow : nat → datetime;
  (** the [FLOAT] that MySQL stores for a numeric literal *)
  mysql_float : Qc → Qc
}.

(** *** The price table *)

(** [create_table]: the table [price] has the columns [from_period]
    (primary key), [to_period] and [price]; as a map from the key to the
    other two columns it holds at most one row per [from_period]. *)
Abbreviation table := (gmap datetime (datetime * Qc)).

(** A connection without autocommit: [session] is the table as the open
    transaction sees it, [committed] what is durable. *)
Record connection : Type := mkconnection {
  committed : table;
  session : table
}.

Definition with_session (con : connection) (t : table) : connection :=
  {| committed := committed con; session := t |}.

Definition DB (A : Type) : Type := connection → connection * result A.

Definition db_ret {A} (a : A) : DB A := λ con, (con, Ok a).

Definition db_bind {A B} (m : DB A) (k : A → DB B) : DB B := λ con,
  match m con with
  | (con', Ok a) => k a con'
  | (con', Raise e) => (con', Raise e)
  end.

Definition lift {A} (r : result A) : DB A := λ con, (con, r).

#[export] Instance DB_ret : MRet DB := @db_ret.
#[export] Instance DB_bind : MBind DB := λ A B k m, db_bind m k.

Fixpoint db_for_each {A} (body : A → DB unit) (xs : list A) : DB unit :=
  match xs with
  | [] => db_ret ()
  | x :: xs' => body x;; db_for_each body xs'
  end.

(** [INSERT IGNORE INTO price VALUES (from, to, price)]: a row whose key is
    taken is skipped with a warning. *)
Definition insert_ignore (from_period to_period : datetime) (price : Qc)
    (t : table) : table :=
  match t !! from_period with
  | Some _ => t
  | None => <[from_period := (to_period, price)]> t
  end.

Definition execute_insert_ignore (from_period to_period : string) (price : Qc)
  : DB unit := λ con,
  ({| committed := committed con;
      session := insert_ignore (mysql_datetime from_period)
                               (mysql_datetime to_period) price (session con) |},
   Ok ()).

(** [con.commit()] *)
Definition commit : DB unit := λ con,
  ({| committed := session con; session := session con |}, Ok ()).

(** The rows of the table, as [(from_period, to_period, price)]. *)
Definition rows (t : table) : list (datetime * (datetime * Qc)) :=
  map_to_list t.

(** [SELECT from_period, to_period FROM price
     WHERE from_period BETWEEN lo AND hi AND price < threshold
     ORDER BY from_period ASC] *)
Definition qualifies (lo hi : datetime) (threshold : Qc)
    (r : datetime * (datetime * Qc)) : Prop :=
  dt_le lo r.1 ∧ dt_le r.1 hi ∧ (r.2.2 < threshold)%Qc.

#[export] Instance qualifies_dec lo hi threshold r :
  Decision (qualifies lo hi threshold r).
Proof. unfold qualifies. apply _. Defined.

Definition by_from (a b : period) : Prop := dt_le a.1 b.1.

#[export] Instance by_from_dec a b : Decision (by_from a b).
Proof. unfold by_from. apply _. Defined.

Definition select_below (lo hi : datetime) (threshold : Qc) (t : table)
  : list period :=
  merge_sort by_from
    (map (λ r, (r.1, r.2.1)) (filter (qualifies lo hi threshold) (rows t))).

(** *** get_price *)

(** The address of the unit rates of a product. *)
Definition tariff_url (product_code : string) : string :=
  "https://api.octopus.energy/v1/products/" +:+ product_code
  +:+ "/electricity-tariffs/" +:+ "E-1R-" +:+ product_code
  +:+ "-C/standard-unit-rates/".

(** The status of the response is not looked at: [resp.json()] is returned
    for whatever body can be read as JSON. *)
Definition get_price (w : world) (api_key product_code : string)
  : result json :=
  match requests_get w (tariff_url product_code) api_key with
  | ConnectionFailed => Raise ConnectionError
  | Response _ body => or_raise JSONDecodeError body      (* resp.json() *)
  end.

(** *** to_timezone *)

Definition to_timezone (w : world) (t : string) (tz : string) : result string :=
  t ← fromisoformat (drop_last 1 t +:+ "+00:00");
  zone ← or_raise UnknownTimeZoneError (zones w tz);
  t ← fromutc zone t;
  Ok (str_datetime t).

(** *** insert_price *)

(** The number MySQL reads where [{price}] is written into the statement: a
    JSON number is written as it is, [True] and [False] are the literals 1
    and 0; [None], a list and a dict make a statement that MySQL refuses.
    A string would be written into the statement as SQL text; the embedding
    stops there with the same refusal. *)
Definition price_literal (price : json) : result Qc :=
  match price with
  | JNum q => Ok q
  | JBool b => Ok (if b then 1%Qc else 0%Qc)
  | _ => Raise ProgrammingError
  end.

(** The body of [for p in prices['results']]. *)
Definition insert_one (w : world) (p : json) : DB unit :=
  valid_from ← lift (getitem p "valid_from" ≫= as_str);
  from_period ← lift (to_timezone w valid_from "Europe/London");
  valid_to ← lift (getitem p "valid_to" ≫= as_str);
  to_period ← lift (to_timezone w valid_to "Europe/London");
  price ← lift (getitem p "value_inc_vat");
  q ← lift (price_literal price);
  execute_insert_ignore from_period to_period (mysql_float w q).

Definition insert_price (w : world) (prices : json) : DB unit :=
  results ← lift (getitem prices "results" ≫= iterate);
  db_for_each (insert_one w) results;;
  commit.

(** The row that [insert_one] writes for the record [p], or the exception
    it raises before writing: what the loop body computes apart from the
    connection. *)
Definition record_row (w : world) (p : json)
  : result (datetime * datetime * Qc) :=
  valid_from ← getitem p "valid_from" ≫= as_str;
  from_period ← to_timezone w valid_from "Europe/London";
  valid_to ← getitem p "valid_to" ≫= as_str;
  to_period ← to_timezone w valid_to "Europe/London";
  price ← getitem p "value_inc_vat";
  q ← price_literal price;
  Ok (mysql_datetime from_period, mysql_datetime to_period, mysql_float w q).

Definition write_row (t : table) (r : datetime * datetime * Qc) : table :=
  insert_ignore r.1.1 r.1.2 r.2 t.

(** The rows of a table stored under the key [k]. *)
Definition rows_from (k : datetime) (t : table)
  : list (datetime * (datetime * Qc)) :=
  filter (λ r, r.1 = k) (rows t).

(** [insert_price] run [n] times in a row on the same answer. *)
Fixpoint insert_price_times (n : nat) (w : world) (prices : json) : DB unit :=
  match n with
  | O => db_ret ()
  | S n' => insert_price w prices;; insert_price_times n' w prices
  end.

(** *** get_hours_below_price *)

(** [d.strftime('%Y-%m-%dT%H:%M:%S%z') + 'Z'] for a naive [d]. *)
Definition strftime_z (d : datetime) : string :=
  str_date d +:+ "T" +:+ zfill2 (hour d) +:+ ":" +:+ zfill2 (minute d)
    +:+ ":" +:+ zfill2 (second d) +:+ "Z".

(** The query window: the local dates of the clock readings [tick] and
    [tick + 1], the second one a day ahead. *)
Definition query_window (w : world) (tick : nat) : result (datetime * datetime) :=
  today ← to_timezone w (strftime_z (utcnow w tick)) "Europe/London";
  let today := before_blank today in
  next ← add_seconds (utcnow w (S tick)) 86400;
  tomorrow ← to_timezone w (strftime_z next) "Europe/London";
  let tomorrow := before_blank tomorrow in
  Ok (mysql_datetime (today +:+ " 00:00:00"),
      mysql_datetime (tomorrow +:+ " 23:59:59")).

(** [cur.execute(SELECT ...); hours = cur.fetchall()] *)
Definition fetch_below (w : world) (tick : nat) (price : Qc)
  : DB (list period) := λ con,
  (con, win ← query_window w tick;
        Ok (select_below win.1 win.2 price (session con))).

Definition get_hours_below_price (w : world) (tick : nat) (price : Qc)
  : DB (list (string * string)) :=
  hours ← fetch_below w tick price;
  lift (merge_hours hours).

(** *** format_hours *)

Definition table_row (h : string * string) : string :=
  "<tr><td>" +:+ h.1 +:+ "</td><td></td><td>" +:+ h.2 +:+ "</td></tr>".

Definition format_hours (hours : list (string * string)) : string :=
  fold_left (λ html h, html +:+ table_row h) hours "".

(** *** Reading the rendered text back *)

(** [s.startswith(pat)] *)
Fixpoint starts_with (pat s : string) {struct pat} : bool :=
  match pat with
  | EmptyString => true
  | String a pat' =>
    match s with
    | EmptyString => false
    | String b s' => if decide (a = b) then starts_with pat' s' else false
    end
  end.

(** The number of table rows with data cells in a text: the places where
    ["<tr><td>"] starts. *)
Fixpoint count_rows (s : string) : nat :=
  match s with
  | EmptyString => 0
  | String _ s' => (if starts_with "<tr><td>" s then 1 else 0) + count_rows s'
  end.

(** [c] does not occur in [s]. *)
Fixpoint lacks (c : ascii) (s : string) : Prop :=
  match s with
  | EmptyString => True
  | String b s' => b ≠ c ∧ lacks c s'
  end.

(** [pat in s] *)
Definition contains (pat s : string) : Prop :=
  ∃ before after, s = before +:+ pat +:+ after.

(** *** main *)

Definition nl : string := String "010"%char EmptyString.

(** [str(t)] of an [int]. *)
Definition str_int (t : Z) : string := NilZero.string_of_int (Z.to_int t).

(** The text that opens the section of threshold [t]. *)
Definition section_header (t : Z) : string :=
  nl +:+ "        <b>Hours below " +:+ str_int t +:+ "p/kWh:</b><br>"
  +:+ nl +:+ "        <table>"
  +:+ nl +:+ "        <tr><th>From</th><th></th><th>To</th></tr>"
  +:+ nl +:+ "        ".

(** The three [html += ...] of one round of the loop over the thresholds. *)
Definition add_section (html : string) (t : Z) (hours : list (string * string))
  : string :=
  ((html +:+ section_header t) +:+ format_hours hours) +:+ "</table><br>".

Fixpoint report (w : world) (thresholds : list Z) (tick : nat) (html : string)
  : DB string :=
  match thresholds with
  | [] => db_ret html
  | t :: rest =>
    hours ← get_hours_below_price w tick (Qc_of_Z t);
    report w rest (2 + tick) (add_section html t hours)
  end.

(** [main] from the fetch to the text handed to [gmail_send]. *)
Definition main (w : world) (api_key product_code : string) : DB string :=
  unit_rates ← lift (get_price w api_key product_code);
  insert_price w unit_rates;;
  report w [20; 10; 0] 0 "".

End Octopus.

(** ** Sample runs *)

Module Sample.
Import Py Pytz Merger Octopus.

(** One record of the API's [results]. *)
Definition tariff (valid_from valid_to : string) (price : Z) : json :=
  JDict [("value_exc_vat", JNum (Qc_of_Z price));
         ("value_inc_vat", JNum (Qc_of_Z price));
         ("valid_from", JStr valid_from);
         ("valid_to", JStr valid_to)].

(** Four records, newest first as the API sends them, the last one a
    repetition of the third. *)
Definition records : list json :=
  [tariff "2021-02-21T10:00:00Z" "2021-02-21T10:30:00Z" 5;
   tariff "2021-02-21T08:30:00Z" "2021-02-21T09:00:00Z" 15;
   tariff "2021-02-21T08:00:00Z" "2021-02-21T08:30:00Z" 12;
   tariff "2021-02-21T08:00:00Z" "2021-02-21T08:30:00Z" 12].

Definition answer : json :=
  JDict [("count", JNum (Qc_of_Z 4)); ("results", JList records)].

(** The body that comes with a refused request. *)
Definition refusal : json := JDict [("detail", JStr "Invalid API key")].

Definition at_six (n : nat) : datetime := mkdatetime 2021 2 21 6 0 0.

(** The API answers; it is six in the morning of 21 February 2021. *)
Definition online : world :=
  mkworld london_only (λ _ _, Response 200 (Some answer)) at_six id.

(** No connection to the API. *)
Definition offline : world :=
  mkworld london_only (λ _ _, ConnectionFailed) at_six id.

(** The API refuses the key: status 401 and a JSON body. *)
Definition unauthorized : world :=
  mkworld london_only (λ _ _, Response 401 (Some refusal)) at_six id.

(** A gateway answers status 502 with a page that is not JSON. *)
Definition bad_gateway : world :=
  mkworld london_only (λ _ _, Response 502 None) at_six id.

(** A server answers status 500 and sends prices all the same. *)
Definition failing_with_prices : world :=
  mkworld london_only (λ _ _, Response 500 (Some answer)) at_six id.

Definition fresh : connection := mkconnection ∅ ∅.

(** The connection after one ingestion of [answer]. *)
Definition stored : connection := (insert_price online answer fresh).1.

(** The window of a query at six that morning: today and tomorrow. *)
Definition window_start : datetime := mkdatetime 2021 2 21 0 0 0.
Definition window_end : datetime := mkdatetime 2021 2 22 23 59 59.

End Sample.

(** ** Vocabulary of the further properties *)

Module Runs.
Import Py Calendar Merger.

(** A run of periods that the merger puts into one interval: its first
    period and the ones that follow it. *)
Definition run : Type := period * list period.

Definition run_periods (g : run) : list period := g.1 :: g.2.

(** From the start of the first period of a run to the end of its last. *)
Definition span (g : run) : period := (g.1.1, (List.last g.2 g.1).2).

(** The seconds from the start of a period to its end, and their sum over
    a list of periods. *)
Definition duration (p : period) : Z := to_seconds p.2 - to_seconds p.1.

Definition total_duration (hours : list period) : Z :=
  foldr (λ p acc, duration p + acc) 0 hours.

End Runs.

Module Rows.
Import Py Merger Octopus.

(** The columns [to_period] and [price] of the first row of [rws] that has
    the key [k]. *)
Definition first_row (k : datetime) (rws : list (datetime * datetime * Qc))
  : option (datetime * Qc) :=
  (λ r, (r.1.2, r.2)) <$> head (filter (λ r, r.1.1 = k) rws).

Definition row_keys (rws : list (datetime * datetime * Qc)) : list datetime :=
  map (λ r, r.1.1) rws.

(** The records of a batch are the rows [rws], one for one. *)
Definition rows_of (w : world) (results : list json)
    (rws : list (datetime * datetime * Qc)) : Prop :=
  Forall2 (λ p r, record_row w p = Ok r) results rws.

End Rows.

(** ** notification: the recipients and the search for a chat *)

Module Notification.

(** [s.replace(old, new)] for single characters. *)
Fixpoint replace_char (old new : ascii) (s : string) : string :=
  match s with
  | EmptyString => EmptyString
  | String c s' =>
    String (if decide (c = old) then new else c) (replace_char old new s')
  end.

(** [s.split(sep)] for a single character [sep]: the pieces between the
    separators, empty pieces included, never an empty list. *)
Fixpoint split_on (sep : ascii) (s : string) : list string :=
  match s with
  | EmptyString => [EmptyString]
  | String c s' =>
    if decide (c = sep) then EmptyString :: split_on sep s'
    else match split_on sep s' with
         | [] => [String c EmptyString]
         | piece :: pieces => String c piece :: pieces
         end
  end.

(** How often [c] occurs in [s]. *)
Fixpoint occurrences (c : ascii) (s : string) : nat :=
  match s with
  | EmptyString => 0
  | String b s' => (if decide (b = c) then 1 else 0) + occurrences c s'
  end.

(** gmail.py: the headers and the payload that [gmail_send] sets on the
    message before it is encoded and sent; [sender] is
    [config['notification']['email_sender']]. *)
Record email_message : Type := mkemail {
  To : string;
  From : string;
  Subject : string;
  Content_Type : string;
  payload : string
}.

Definition gmail_message (sender recipient subject body : string)
  : email_message :=
  {| To := replace_char " " "," recipient;
     From := sender;
     Subject := subject;
     Content_Type := "text/html";
     payload := body |}.

(** graph.py: the request body of [Graph.send_email]. *)
Inductive body_type : Type := Text | Html.

Record send_mail_request : Type := mkrequest {
  request_subject : string;
  content_type : body_type;
  content : string;
  to_recipients : list string;      (* the address of each recipient *)
  save_to_sent_items : bool
}.

Definition send_email_request (recipient subject text : string)
  : send_mail_request :=
  {| request_subject := subject;
     content_type := Html;
     content := text;
     to_recipients := split_on " " recipient;
     save_to_sent_items := true |}.

(** graph.py, [Graph.get_chat]: the chats of the user as the API lists
    them, each with the members that the second request expands.  A member
    may come without an email, as one reached by telephone does. *)
Record chat_member : Type := mkmember { email : option string }.

Record chat : Type := mkchat {
  chat_id : string;
  members : list chat_member
}.

(** What a call ends in: a returned value or the [AttributeError] of
    [member.email.lower()] on a member without email. *)
Inductive outcome (A : Type) : Type :=
| Returned (a : A)
| AttributeError.
Arguments Returned {A} a.
Arguments AttributeError {A}.

Section get_chat.
(** [str.lower] *)
Variable lower : string → string.

(** The inner loop, [for member in members.members]: whether it returns. *)
Fixpoint member_loop (recipient : string) (ms : list chat_member)
  : outcome bool :=
  match ms with
  | [] => Returned false
  | m :: ms' =>
    match email m with
    | None => AttributeError
    | Some e =>
      if decide (lower e = lower recipient) then Returned true
      else member_loop recipient ms'
    end
  end.

(** [for chat in chats.value: ...; return None] *)
Fixpoint get_chat (chats : list chat) (recipient : string)
  : outcome (option string) :=
  match chats with
  | [] => Returned None
  | c :: chats' =>
    match member_loop recipient (members c) with
    | AttributeError => AttributeError
    | Returned true => Returned (Some (chat_id c))
    | Returned false => get_chat chats' recipient
    end
  end.

(** The member has an email and it is the recipient's, letter case apart. *)
Definition is_recipient (recipient : string) (m : chat_member) : Prop :=
  ∃ e, email m = Some e ∧ lower e = lower recipient.

(** The member has an email and it is not the recipient's. *)
Definition is_other (recipient : string) (m : chat_member) : Prop :=
  ∃ e, email m = Some e ∧ lower e ≠ lower recipient.

End get_chat.

(** [str.lower] on the letters A to Z; other characters stay. *)
Definition lower_char (c : ascii) : ascii :=
  let n := nat_of_ascii c in
  if decide (65 ≤ n ≤ 90)%nat then ascii_of_nat (n + 32) else c.

Fixpoint ascii_lower (s : string) : string :=
  match s with
  | EmptyString => EmptyString
  | String c s' => String (lower_char c) (ascii_lower s')
  end.

(** Two chats: one with a member without email after Ann, one with Bob. *)
Definition sample_chats : list chat :=
  [mkchat "19:first" [mkmember (Some "ann@example.org"); mkmember None];
   mkchat "19:second" [mkmember (Some "Bob@Example.org");
                       mkmember (Some "ann@example.org")]].

End Notification.

(** ** Further sample runs *)

Module Cases.
Import Py Pytz Merger Octopus.

(** A zone database whose every zone is an hour east of UTC. *)
Definition east : world :=
  mkworld (λ _, Some (StaticTzInfo BST)) (λ _ _, ConnectionFailed)
          Sample.at_six id.

(** A zone database that knows no zone. *)
Definition nowhere : world :=
  mkworld (λ _, None) (λ _ _, ConnectionFailed) Sample.at_six id.

(** The last half hour of the year 9999. *)
Definition last_half_hour : datetime := mkdatetime 9999 12 31 23 30 0.

(** The hour that the end of summer time repeats: 00:00 UTC is 01:00 of
    summer time, 01:00 UTC is 01:00 of Greenwich time. *)
Definition before_change : datetime := mkdatetime 2021 10 31 0 0 0.
Definition after_change : datetime := mkdatetime 2021 10 31 1 0 0.

(** The rows of [Sample.records]. *)
Definition sample_rows : list (datetime * datetime * Qc) :=
  [(morning 10 0, morning 10 30, Qc_of_Z 5);
   (morning 8 30, morning 9 0, Qc_of_Z 15);
   (morning 8 0, morning 8 30, Qc_of_Z 12);
   (morning 8 0, morning 8 30, Qc_of_Z 12)].

(** Three records with three period starts, and the same oldest first. *)
Definition distinct_records : list json :=
  [Sample.tariff "2021-02-21T10:00:00Z" "2021-02-21T10:30:00Z" 5;
   Sample.tariff "2021-02-21T08:30:00Z" "2021-02-21T09:00:00Z" 15;
   Sample.tariff "2021-02-21T08:00:00Z" "2021-02-21T08:30:00Z" 12].

Definition distinct_rows : list (datetime * datetime * Qc) :=
  [(morning 10 0, morning 10 30, Qc_of_Z 5);
   (morning 8 30, morning 9 0, Qc_of_Z 15);
   (morning 8 0, morning 8 30, Qc_of_Z 12)].

Definition newest_first : json := JDict [("results", JList distinct_records)].
Definition oldest_first : json :=
  JDict [("results", JList (rev distinct_records))].



End Cases.

(** * Theorems *)

Section string_facts.
Import Py.

Lemma substring_prefix (s t : string) :
  String.substring 0 (String.length s) (s +:+ t) = s.
Proof.
  induction s as [|c s IH]; simpl; [by destruct t|]. by rewrite IH.
Qed.

Lemma length_app_string (s t : string) :
  String.length (s +:+ t) = (String.length s + String.length t)%nat.
Proof. induction s as [|c s IH]; simpl; [done|]. by rewrite IH. Qed.

Lemma drop_last_app (n : nat) (s t : string) :
  String.length t = n → drop_last n (s +:+ t) = s.
Proof.
  intros <-. unfold drop_last. rewrite length_app_string.
  replace (String.length s + String.length t - String.length t)%nat
    with (String.length s) by lia.
  apply substring_prefix.
Qed.

Lemma app_assoc_string (a b c : string) : (a +:+ b) +:+ c = a +:+ (b +:+ c).
Proof.
  induction a as [|x a IH]; [done|].
  change (String x ((a +:+ b) +:+ c) = String x (a +:+ (b +:+ c))).
  by f_equal.
Qed.

(** [str(d)[0:-3]] is [str(d)] without [":SS"]. *)
Lemma drop_last_str_datetime d :
  drop_last 3 (str_datetime d) =
  str_date d +:+ " " +:+ zfill2 (hour d) +:+ ":" +:+ zfill2 (minute d).
Proof.
  unfold str_datetime.
  rewrite <- !(app_assoc_string _ _ (":" +:+ zfill2 (second d))).
  by apply drop_last_app.
Qed.

End string_facts.

(** ** Calendar arithmetic *)

Section calendar_facts.
Import Py Calendar.

Lemma year_split Y : 0 <= Y ->
  exists a b c e, 0 <= a ∧ 0 <= b < 4 ∧ 0 <= c < 25 ∧ 0 <= e < 4 ∧
    Y = 400 * a + 100 * b + 4 * c + e.
Proof.
  intros HY. exists (Y / 400), (Y mod 400 / 100), (Y mod 100 / 4), (Y mod 4).
  Z.div_mod_to_equations; lia.
Qed.

Lemma days_before_year_split a b c e :
  0 <= a -> 0 <= b < 4 -> 0 <= c < 25 -> 0 <= e < 4 ->
  days_before_year (400 * a + 100 * b + 4 * c + e + 1)
  = 146097 * a + 36524 * b + 1461 * c + 365 * e.
Proof.
  intros. unfold days_before_year.
  replace (400 * a + 100 * b + 4 * c + e + 1 - 1) with (400 * a + 100 * b + 4 * c + e) by lia.
  rewrite <- (Z.div_unique (400 * a + 100 * b + 4 * c + e) 4 (100 * a + 25 * b + c) e) by lia.
  rewrite <- (Z.div_unique (400 * a + 100 * b + 4 * c + e) 100 (4 * a + b) (4 * c + e)) by lia.
  rewrite <- (Z.div_unique (400 * a + 100 * b + 4 * c + e) 400 a (100 * b + 4 * c + e)) by lia.
  lia.
Qed.

Lemma is_leap_split a b c e :
  0 <= a -> 0 <= b < 4 -> 0 <= c < 25 -> 0 <= e < 4 ->
  is_leap (400 * a + 100 * b + 4 * c + e + 1)
  = (e =? 3) && (negb (c =? 24) || (b =? 3)).
Proof.
  intros. unfold is_leap.
  set (y := 400 * a + 100 * b + 4 * c + e + 1).
  assert (y mod 4 = (e + 1) mod 4) as -> by (subst y; Z.div_mod_to_equations; lia).
  assert (y mod 100 = (4 * c + e + 1) mod 100) as -> by (subst y; Z.div_mod_to_equations; lia).
  assert (y mod 400 = (100 * b + 4 * c + e + 1) mod 400) as -> by (subst y; Z.div_mod_to_equations; lia).
  repeat match goal with
  | |- context [Z.eqb ?x ?y] => destruct (Z.eqb_spec x y)
  end; simpl; try reflexivity; exfalso; Z.div_mod_to_equations; lia.
Qed.

Lemma divmod_unique n d q r : 0 <= r < d -> n = d * q + r -> n / d = q ∧ n mod d = r.
Proof. intros Hr Hn. split; symmetry;
    [apply (Z.div_unique n d q r)|apply (Z.mod_unique n d q r)]; auto. Qed.

Lemma year_part_regular a b c e k :
  0 <= a -> 0 <= b < 4 -> 0 <= c < 25 -> 0 <= e < 4 -> 0 <= k <= 364 ->
  year_part (146097 * a + 36524 * b + 1461 * c + 365 * e + k)
  = (400 * a + 100 * b + 4 * c + e + 1, k, false,
     (e =? 3) && (negb (c =? 24) || (b =? 3))).
Proof.
  intros. unfold year_part, DI400Y, DI100Y, DI4Y. cbv zeta.
  destruct (divmod_unique (146097 * a + 36524 * b + 1461 * c + 365 * e + k) 146097 a
              (36524 * b + 1461 * c + 365 * e + k)) as [-> ->]; [lia..|].
  destruct (divmod_unique (36524 * b + 1461 * c + 365 * e + k) 36524 b
              (1461 * c + 365 * e + k)) as [-> ->]; [lia..|].
  destruct (divmod_unique (1461 * c + 365 * e + k) 1461 c (365 * e + k)) as [-> ->]; [lia..|].
  destruct (divmod_unique (365 * e + k) 365 e k) as [-> ->]; [lia..|].
  replace (e =? 4) with false by (symmetry; apply Z.eqb_neq; lia).
  replace (b =? 4) with false by (symmetry; apply Z.eqb_neq; lia).
  simpl. f_equal. f_equal. f_equal. lia.
Qed.

Lemma year_part_special a b c e :
  0 <= a -> 0 <= b < 4 -> 0 <= c < 25 -> e = 3 -> c <> 24 ∨ b = 3 ->
  let r := year_part (146097 * a + 36524 * b + 1461 * c + 365 * e + 365) in
  r.1.1.1 = 400 * a + 100 * b + 4 * c + e + 1 + 1 ∧ r.1.2 = true.
Proof.
  intros Ha Hb Hc -> Hl. unfold year_part, DI400Y, DI100Y, DI4Y. cbv zeta.
  destruct (divmod_unique (146097 * a + 36524 * b + 1461 * c + 365 * 3 + 365) 146097 a
              (36524 * b + 1461 * c + 1460)) as [-> ->]; [lia..|].
  destruct (decide (c = 24)) as [->|Hc24].
  - assert (b = 3) as -> by lia.
    change ((36524 * 3 + 1461 * 24 + 1460) / 36524) with 4.
    change ((36524 * 3 + 1461 * 24 + 1460) mod 36524) with 0.
    change (0 mod 1461) with 0. change (0 / 1461) with 0.
    change (0 mod 365) with 0. change (0 / 365) with 0.
    cbn [fst snd]. split; [lia|reflexivity].
  - destruct (divmod_unique (36524 * b + 1461 * c + 1460) 36524 b
              (1461 * c + 1460)) as [-> ->]; [lia..|].
    destruct (divmod_unique (1461 * c + 1460) 1461 c 1460) as [-> ->]; [lia..|].
    change (1460 / 365) with 4. change (1460 mod 365) with 0.
    cbn [fst snd]. split; [lia|reflexivity].
Qed.

Lemma ord2ymd_parts n :
  ord2ymd n =
  let '(y, n', special, leap) := year_part (n - 1) in
  if special then (y - 1, 12, 31)
  else (y, (month_part leap n').1, (month_part leap n').2).
Proof.
  unfold ord2ymd, year_part, month_part. cbv zeta.
  repeat match goal with
  | |- context [if ?c then _ else _] => destruct c eqn:?
  end; reflexivity.
Qed.

Ltac table_lookups :=
  repeat match goal with
  | |- context [nth (Z.to_nat (Zpos ?c)) ?T ?d] =>
    let v := eval vm_compute in (nth (Z.to_nat (Zpos c)) T d) in
    change (nth (Z.to_nat (Zpos c)) T d) with v
  | H : context [nth (Z.to_nat (Zpos ?c)) ?T ?d] |- _ =>
    let v := eval vm_compute in (nth (Z.to_nat (Zpos c)) T d) in
    change (nth (Z.to_nat (Zpos c)) T d) with v in H
  end;
  cbn [Z.ltb Z.eqb Z.compare Pos.compare Pos.compare_cont Pos.eqb andb] in *.

Lemma month_part_ok (leap : bool) m dd :
  1 <= m <= 12 ->
  1 <= dd <= (if (m =? 2) && leap then 29
              else nth (Z.to_nat m) DAYS_IN_MONTH (-1)) ->
  month_part leap (nth (Z.to_nat m) DAYS_BEFORE_MONTH (-1)
                   + (if (2 <? m) && leap then 1 else 0) + dd - 1)
  = (m, dd).
Proof.
  intros Hm Hd.
  assert (m = 1 ∨ m = 2 ∨ m = 3 ∨ m = 4 ∨ m = 5 ∨ m = 6 ∨ m = 7
          ∨ m = 8 ∨ m = 9 ∨ m = 10 ∨ m = 11 ∨ m = 12) as Hcases by lia.
  unfold month_part. cbv zeta.
  rewrite Z.shiftr_div_pow2 by lia. change (2 ^ 5) with 32.
  destruct leap;
    repeat (destruct Hcases as [->|Hcases]); subst;
    table_lookups;
    match goal with
    | |- context [(?x + 50) / 32] =>
      match goal with
      | |- _ = (?mv, _) =>
        let q := fresh "q" in
        let mv1 := eval vm_compute in (mv + 1) in
        assert (exists q, (x + 50) / 32 = q ∧ (q = mv ∨ q = mv1)
                  ∧ 32 * q <= x + 50 < 32 * q + 32) as (q & -> & [-> | ->] & Hb)
          by (eexists; split; [reflexivity|]; Z.div_mod_to_equations; lia);
        try lia;
        try change (mv1 - 1) with mv
      end
    end;
    table_lookups;
    match goal with
    | |- context [?a <? ?b] => destruct (Z.ltb_spec a b); try lia
    end; f_equal; lia.
Qed.

Lemma day_of_year_bound y m dd :
  1 <= m <= 12 -> 1 <= dd <= days_in_month y m ->
  0 <= days_before_month y m + dd - 1 <= 364 + (if is_leap y then 1 else 0) ∧
  (days_before_month y m + dd - 1 = 365 -> m = 12 ∧ dd = 31).
Proof.
  intros Hm Hd. unfold days_in_month, days_before_month in *.
  assert (m = 1 ∨ m = 2 ∨ m = 3 ∨ m = 4 ∨ m = 5 ∨ m = 6 ∨ m = 7
          ∨ m = 8 ∨ m = 9 ∨ m = 10 ∨ m = 11 ∨ m = 12) as Hcases by lia.
  destruct (is_leap y);
    repeat (destruct Hcases as [->|Hcases]); subst; table_lookups; lia.
Qed.

Lemma ord2ymd_ymd2ord y m dd :
  1 <= y -> 1 <= m <= 12 -> 1 <= dd <= days_in_month y m ->
  ord2ymd (ymd2ord y m dd) = (y, m, dd).
Proof.
  intros Hy Hm Hd.
  destruct (day_of_year_bound y m dd Hm Hd) as [Hk Hlast].
  destruct (year_split (y - 1)) as (a & b & c & e & Ha & Hb & Hc & He & HY);
    [lia|].
  assert (y = 400 * a + 100 * b + 4 * c + e + 1) as Hy' by lia.
  rewrite ord2ymd_parts. unfold ymd2ord.
  replace (days_before_year y + days_before_month y m + dd - 1)
    with (days_before_year y + (days_before_month y m + dd - 1)) by lia.
  set (k := days_before_month y m + dd - 1) in *.
  rewrite Hy' at 1. rewrite days_before_year_split by done.
  pose proof (is_leap_split a b c e Ha Hb Hc He) as Hleap.
  rewrite <- Hy' in Hleap.
  destruct (decide (k = 365)) as [Hk365|Hk365].
  - destruct (Hlast Hk365) as [-> ->].
    destruct (is_leap y) eqn:Hl; [|lia]. symmetry in Hleap.
    apply andb_prop in Hleap as [He3%Z.eqb_eq Hc24].
    assert (c <> 24 ∨ b = 3) as Hcb.
    { apply orb_prop in Hc24 as [Hc24|Hb3%Z.eqb_eq]; [|by right].
      left. apply negb_true_iff in Hc24. by apply Z.eqb_neq. }
    destruct (year_part_special a b c e Ha Hb Hc He3 Hcb) as [Hy1 Hsp].
    rewrite Hk365.
    destruct (year_part _) as [[[y' n'] sp] lp]. cbn [fst snd] in *. subst sp.
    f_equal. f_equal. lia.
  - rewrite year_part_regular by (try done; destruct (is_leap y); lia).
    rewrite <- Hleap, <- Hy'. subst k. unfold days_before_month.
    unfold days_in_month in Hd.
    by rewrite month_part_ok.
Qed.

Lemma valid_datetime_fields d :
  valid_datetime d = true ->
  1 <= year d <= 9999 ∧ 1 <= month d <= 12 ∧
  1 <= day d <= days_in_month (year d) (month d) ∧
  0 <= hour d <= 23 ∧ 0 <= minute d <= 59 ∧ 0 <= second d <= 59.
Proof.
  unfold valid_datetime. intros Hv.
  repeat (apply andb_prop in Hv as [Hv ?]). lia.
Qed.

Lemma ymd2ord_range y m dd :
  1 <= y <= 9999 -> 1 <= m <= 12 -> 1 <= dd <= days_in_month y m ->
  0 < ymd2ord y m dd <= MAXORDINAL.
Proof.
  intros Hy Hm Hd. destruct (day_of_year_bound y m dd Hm Hd) as [Hk _].
  unfold ymd2ord, MAXORDINAL.
  destruct (decide (y = 9999)) as [->|Hne].
  - change (is_leap 9999) with false in Hk.
    change (days_before_year 9999) with 3651694. lia.
  - assert (0 <= days_before_year y <= 3651330).
    { unfold days_before_year. Z.div_mod_to_equations. lia. }
    destruct (is_leap y); lia.
Qed.

Lemma add_seconds_same_day d delta :
  valid_datetime d = true ->
  0 <= hour d * 3600 + minute d * 60 + second d + delta < 86400 ->
  add_seconds d delta =
  Ok (mkdatetime (year d) (month d) (day d)
        ((hour d * 3600 + minute d * 60 + second d + delta) / 3600)
        ((hour d * 3600 + minute d * 60 + second d + delta) mod 3600 / 60)
        ((hour d * 3600 + minute d * 60 + second d + delta) mod 3600 mod 60)).
Proof.
  intros Hv Ht.
  destruct (valid_datetime_fields d Hv) as (Hy & Hm & Hd & _).
  pose proof (ymd2ord_range _ _ _ Hy Hm Hd) as Hord.
  unfold add_seconds, to_seconds. cbv zeta.
  set (t := hour d * 3600 + minute d * 60 + second d + delta) in *.
  destruct (divmod_unique
              (ymd2ord (year d) (month d) (day d) * 86400 + hour d * 3600
               + minute d * 60 + second d + delta) 86400
              (ymd2ord (year d) (month d) (day d)) t) as [-> ->];
    [lia|subst t; lia|].
  rewrite ord2ymd_ymd2ord by lia.
  destruct (Z.ltb_spec 0 (ymd2ord (year d) (month d) (day d))); [|lia].
  destruct (Z.leb_spec (ymd2ord (year d) (month d) (day d)) MAXORDINAL); [|lia].
  reflexivity.
Qed.

Lemma add_seconds_zero d : valid_datetime d = true -> add_seconds d 0 = Ok d.
Proof.
  intros Hv. destruct (valid_datetime_fields d Hv) as (_ & _ & _ & Hh & Hmi & Hs).
  rewrite add_seconds_same_day by (try done; lia).
  destruct d as [y mo dd h mi s]; simpl in *. f_equal. f_equal.
  all: Z.div_mod_to_equations; lia.
Qed.

Lemma add_seconds_hour d :
  valid_datetime d = true -> hour d < 23 ->
  add_seconds d 3600 =
  Ok (mkdatetime (year d) (month d) (day d) (hour d + 1) (minute d) (second d)).
Proof.
  intros Hv H23. destruct (valid_datetime_fields d Hv) as (_ & _ & _ & Hh & Hmi & Hs).
  rewrite add_seconds_same_day by (try done; lia).
  f_equal. f_equal.
  all: Z.div_mod_to_equations; lia.
Qed.
End calendar_facts.

(** ** Printing and reading timestamps *)

Section parse_facts.
Import Py Calendar Parse.

Lemma digit_value_digit n : digit_value (digit n) = Some (n mod 10).
Proof.
  unfold digit_value, digit. pose proof (Z.mod_pos_bound n 10).
  rewrite nat_ascii_embedding by lia.
  rewrite decide_True by lia. f_equal. lia.
Qed.

Lemma parse_digits_zfill2 n : 0 ≤ n < 100 → parse_digits (zfill2 n) = Some n.
Proof.
  intros Hn. unfold zfill2, parse_digits. cbn [digits_from].
  rewrite !digit_value_digit. cbn [mbind option_bind]. f_equal.
  rewrite (Z.mod_small (n / 10) 10) by (split; [apply Z.div_pos|apply Z.div_lt_upper_bound]; lia).
  pose proof (Z.div_mod n 10). lia.
Qed.

Lemma parse_digits_zfill4 n :
  0 ≤ n < 10000 → parse_digits (zfill4 n) = Some n.
Proof.
  intros Hn. unfold zfill4, zfill2, parse_digits. cbn [digits_from].
  rewrite !digit_value_digit. cbn [mbind option_bind]. f_equal.
  assert (n / 100 = (n / 1000) * 10 + (n / 100) mod 10) as H100.
  { replace (n / 1000) with (n / 100 / 10)
      by (rewrite Z.div_div by lia; done).
    pose proof (Z.div_mod (n / 100) 10). lia. }
  assert (n / 10 = (n / 100) * 10 + (n / 10) mod 10) as H10.
  { replace (n / 100) with (n / 10 / 10)
      by (rewrite Z.div_div by lia; done).
    pose proof (Z.div_mod (n / 10) 10). lia. }
  rewrite (Z.mod_small (n / 1000) 10)
    by (split; [apply Z.div_pos|apply Z.div_lt_upper_bound]; lia).
  pose proof (Z.div_mod n 10). lia.
Qed.

Lemma valid_printable d : valid_datetime d = true → printable d.
Proof.
  unfold valid_datetime, printable, days_in_month. intros Hv.
  repeat (apply andb_prop in Hv as [Hv ?]).
  assert (day d ≤ 31); [|lia].
  destruct d as [y mo dd h mi sec]; simpl in *.
  assert (mo = 1 ∨ mo = 2 ∨ mo = 3 ∨ mo = 4 ∨ mo = 5 ∨ mo = 6 ∨ mo = 7
          ∨ mo = 8 ∨ mo = 9 ∨ mo = 10 ∨ mo = 11 ∨ mo = 12) as Hmo by lia.
  destruct (is_leap y);
    repeat (destruct Hmo as [->|Hmo]; [simpl in *; lia|]); subst; simpl in *; lia.
Qed.

(** Reading back what [str] and [strftime] print, whatever the separator
    between the date and the time. *)
Lemma parse_civil_printed d (sep : ascii) :
  printable d →
  parse_civil (str_date d +:+ String sep EmptyString +:+ zfill2 (hour d)
               +:+ ":" +:+ zfill2 (minute d) +:+ ":" +:+ zfill2 (second d))
  = Some d.
Proof.
  intros (Hy & Hmo & Hd & Hh & Hmi & Hs).
  pose proof (parse_digits_zfill4 _ Hy) as Py.
  pose proof (parse_digits_zfill2 _ Hmo) as Pmo.
  pose proof (parse_digits_zfill2 _ Hd) as Pd.
  pose proof (parse_digits_zfill2 _ Hh) as Ph.
  pose proof (parse_digits_zfill2 _ Hmi) as Pmi.
  pose proof (parse_digits_zfill2 _ Hs) as Ps.
  unfold zfill4, zfill2 in *.
  unfold parse_civil, str_date, zfill4, zfill2, char_is.
  cbv [String.append String.length String.substring String.get].
  rewrite decide_True by done. cbn [mbind option_bind].
  rewrite Py, Pmo, Pd, Ph, Pmi, Ps. cbn [mbind option_bind].
  rewrite !decide_True by done. cbn [mbind option_bind].
  by destruct d.
Qed.

Lemma fromisoformat_printed d :
  valid_datetime d = true →
  fromisoformat (drop_last 1 (Octopus.strftime_z d) +:+ "+00:00") = Ok d.
Proof.
  intros Hv. pose proof (parse_civil_printed d "T" (valid_printable d Hv)) as P.
  unfold str_date, zfill4, zfill2 in P. cbv [String.append] in P.
  unfold fromisoformat, drop_last, Octopus.strftime_z, str_date, zfill4, zfill2.
  cbv [String.append String.length String.substring Nat.sub].
  rewrite P, decide_True by done. by rewrite Hv.
Qed.

(** [to_timezone] on a printed UTC instant: the zone's offset at that
    instant is added. *)
Lemma to_timezone_printed w d tz zone inf :
  valid_datetime d = true →
  Octopus.zones w tz = Some zone →
  Pytz.info_at zone d = Ok inf →
  Octopus.to_timezone w (Octopus.strftime_z d) tz
  = (t ← add_seconds d (Pytz.utcoffset inf); Ok (str_datetime t)).
Proof.
  intros Hv Hz Hi. unfold Octopus.to_timezone.
  rewrite fromisoformat_printed by done.
  unfold mbind, result_bind. cbn [bind]. rewrite Hz. cbn [or_raise bind].
  unfold Pytz.fromutc, mbind, result_bind. rewrite Hi. cbn [bind].
  by destruct (add_seconds d (Pytz.utcoffset inf)).
Qed.

Lemma parse_civil_str_datetime d :
  printable d → parse_civil (str_datetime d) = Some d.
Proof. apply (parse_civil_printed d " "). Qed.

Lemma str_datetime_minute_text d :
  str_datetime d
  = drop_last 3 (str_datetime d) +:+ (":" +:+ zfill2 (second d)).
Proof.
  rewrite drop_last_str_datetime. unfold str_datetime.
  by rewrite !app_assoc_string.
Qed.

End parse_facts.

Section html_facts.
Import Py Merger Octopus.

Lemma lacks_app c s t : lacks c s → lacks c t → lacks c (s +:+ t).
Proof.
  induction s as [|b s IH]; [done|]. intros [Hb Hs] Ht.
  change (String b s +:+ t) with (String b (s +:+ t)). split; auto.
Qed.

(** A text without ["<"] starts no row. *)
Lemma count_rows_lacks_app s t :
  lacks "<" s → count_rows (s +:+ t) = count_rows t.
Proof.
  induction s as [|b s IH]; [done|]. intros [Hb Hs].
  change (String b s +:+ t) with (String b (s +:+ t)).
  cbn [count_rows starts_with]. rewrite decide_False by done.
  by rewrite IH.
Qed.

Lemma digit_not_lt n : digit n ≠ "<"%char.
Proof.
  unfold digit. intros H. apply (f_equal nat_of_ascii) in H.
  rewrite nat_ascii_embedding in H.
  - change (nat_of_ascii "<") with 60%nat in H.
    pose proof (Z.mod_pos_bound n 10). lia.
  - pose proof (Z.mod_pos_bound n 10). lia.
Qed.

Lemma zfill2_lacks_lt n : lacks "<" (zfill2 n).
Proof. repeat split; apply digit_not_lt. Qed.

Lemma zfill4_lacks_lt n : lacks "<" (zfill4 n).
Proof. repeat split; apply digit_not_lt. Qed.

Lemma lacks_one (c b : ascii) : b ≠ c → lacks c (String b EmptyString).
Proof. by split. Qed.

Lemma minute_text_lacks_lt d : lacks "<" (drop_last 3 (str_datetime d)).
Proof.
  rewrite drop_last_str_datetime. unfold str_date.
  rewrite !app_assoc_string.
  apply lacks_app; [apply zfill4_lacks_lt|].
  apply (lacks_app "<" "-"); [apply lacks_one; discriminate|].
  apply lacks_app; [apply zfill2_lacks_lt|].
  apply (lacks_app "<" "-"); [apply lacks_one; discriminate|].
  apply lacks_app; [apply zfill2_lacks_lt|].
  apply (lacks_app "<" " "); [apply lacks_one; discriminate|].
  apply lacks_app; [apply zfill2_lacks_lt|].
  apply (lacks_app "<" ":"); [apply lacks_one; discriminate|].
  apply zfill2_lacks_lt.
Qed.

Lemma string_of_uint_lacks_lt d : lacks "<" (NilZero.string_of_uint d).
Proof.
  destruct d; try done; simpl; (split; [done|]);
    match goal with |- lacks _ (NilEmpty.string_of_uint ?u) =>
      induction u; simpl; try done; by split end.
Qed.

Lemma str_int_lacks_lt t : lacks "<" (str_int t).
Proof.
  unfold str_int. destruct (Z.to_int t) as [d|d]; simpl.
  - apply string_of_uint_lacks_lt.
  - split; [done|]. apply string_of_uint_lacks_lt.
Qed.

(** The loop of [format_hours] appends the rows from left to right. *)
Lemma format_hours_from html hours :
  fold_left (λ html h, html +:+ table_row h) hours html
  = html +:+ foldr (λ h rest, table_row h +:+ rest) "" hours.
Proof.
  revert html. induction hours as [|h hours IH]; intros html; simpl.
  - induction html as [|c html IHh]; [done|].
    change (String c html +:+ "") with (String c (html +:+ "")).
    by rewrite <- IHh.
  - by rewrite IH, app_assoc_string.
Qed.

Lemma format_hours_rows hours :
  format_hours hours = foldr (λ h rest, table_row h +:+ rest) "" hours.
Proof. unfold format_hours. by rewrite format_hours_from. Qed.

Lemma count_rows_table_row h rest :
  lacks "<" h.1 → lacks "<" h.2 →
  count_rows (table_row h +:+ rest) = S (count_rows rest).
Proof.
  intros H1 H2. unfold table_row. rewrite !app_assoc_string.
  change (count_rows ("<tr><td>" +:+ ?x)) with (S (count_rows x)).
  rewrite count_rows_lacks_app by done.
  change (count_rows ("</td><td></td><td>" +:+ ?x)) with (count_rows x).
  by rewrite count_rows_lacks_app by done.
Qed.

Lemma count_rows_cells (intervals : list period) rest :
  count_rows (foldr (λ h rest, table_row h +:+ rest) "" (map to_minutes intervals)
              +:+ rest)
  = (List.length intervals + count_rows rest)%nat.
Proof.
  induction intervals as [|p intervals IH]; [done|].
  cbn [map foldr List.length]. rewrite app_assoc_string.
  rewrite count_rows_table_row by apply minute_text_lacks_lt.
  by rewrite IH.
Qed.

Lemma count_rows_section_header t rest :
  count_rows (section_header t +:+ rest) = count_rows rest.
Proof.
  unfold section_header. rewrite !app_assoc_string.
  change (count_rows (nl +:+ "        <b>Hours below " +:+ ?x))
    with (count_rows x).
  rewrite count_rows_lacks_app by apply str_int_lacks_lt.
  reflexivity.
Qed.

Lemma count_rows_section t (intervals : list period) :
  count_rows (add_section "" t (map to_minutes intervals))
  = List.length intervals.
Proof.
  unfold add_section. rewrite format_hours_rows.
  change ("" +:+ section_header t) with (section_header t).
  rewrite app_assoc_string, count_rows_section_header, count_rows_cells.
  change (count_rows "</table><br>") with 0%nat. lia.
Qed.

Lemma section_contains_header html t hours :
  contains ("<b>Hours below " +:+ str_int t +:+ "p/kWh:</b>")
           (add_section html t hours).
Proof.
  exists (html +:+ nl +:+ "        ").
  exists ("<br>" +:+ nl +:+ "        <table>"
          +:+ nl +:+ "        <tr><th>From</th><th></th><th>To</th></tr>"
          +:+ nl +:+ "        " +:+ format_hours hours +:+ "</table><br>").
  unfold add_section, section_header. rewrite !app_assoc_string.
  reflexivity.
Qed.

End html_facts.

Section merger_facts.
Import Py Merger.

Lemma last_alter_pred (l : list period) (c : period) (f : period → period) :
  last l = Some c →
  alter f (pred (List.length l)) l = removelast l ++ [f c].
Proof.
  intros [l' ->]%last_Some.
  rewrite length_app, removelast_last. simpl.
  replace (pred (List.length l' + 1))%nat with (List.length l' + 0)%nat by lia.
  by rewrite alter_app_r.
Qed.

(** The loop, started on the closed intervals [closed] followed by the open
    one [cur], never raises and computes [closed ++ scan cur rest]. *)
Lemma for_each_concat_step rest : ∀ closed cur,
  for_each concat_step rest (closed ++ [cur]) = Ok (closed ++ scan cur rest).
Proof.
  induction rest as [|p rest IH]; intros closed cur; simpl; [done|].
  unfold concat_step at 1. rewrite last_snoc. simpl.
  case_decide.
  - rewrite (last_alter_pred _ cur) by apply last_snoc.
    rewrite removelast_last. simpl. apply IH.
  - simpl. rewrite (IH (closed ++ [cur]) p). by rewrite <- (assoc_L (++)).
Qed.

Lemma concat_hours_scan p rest :
  concat_hours (p :: rest) = Ok (scan p rest).
Proof. apply (for_each_concat_step rest [] p). Qed.

Lemma merged_intervals_spec hours :
  merged_intervals hours = Ok (merge_spec hours).
Proof. destruct hours; [done|]. apply concat_hours_scan. Qed.

Lemma merge_hours_spec hours :
  merge_hours hours = Ok (map to_minutes (merge_spec hours)).
Proof. unfold merge_hours. by rewrite merged_intervals_spec. Qed.

Lemma contiguous_head_to (a b : datetime) (c : datetime) rest :
  contiguous ((a, c) :: rest) → contiguous ((b, c) :: rest).
Proof. by destruct rest. Qed.

Lemma scan_contiguous rest : ∀ cur,
  contiguous (cur :: rest) →
  scan cur rest = [(cur.1, default cur.2 (snd <$> last rest))].
Proof.
  induction rest as [|q rest IH]; intros [a b] Hc; [done|].
  destruct Hc as [Hq Hc]. simpl in *. rewrite decide_True by done.
  destruct q as [qa qb].
  rewrite IH by exact (contiguous_head_to qa a qb rest Hc).
  simpl. rewrite last_cons. by destruct (last rest).
Qed.

Lemma scan_non_contiguous rest : ∀ cur,
  non_contiguous (cur :: rest) →
  List.length (scan cur rest) = S (List.length rest).
Proof.
  induction rest as [|q rest IH]; intros cur Hn; [done|].
  destruct Hn as [Hq Hn]. simpl. rewrite decide_False by done.
  simpl. by rewrite IH.
Qed.

Lemma scan_head rest : ∀ cur, fst <$> head (scan cur rest) = Some cur.1.
Proof.
  induction rest as [|q rest IH]; intros cur; [done|].
  simpl. case_decide; [|done]. by rewrite IH.
Qed.

(** Whatever the input, two neighbours of the output never touch. *)
Lemma scan_maximal rest : ∀ cur, non_contiguous (scan cur rest).
Proof.
  induction rest as [|q rest IH]; intros cur; [done|].
  simpl. case_decide as Hq; [apply IH|].
  specialize (IH q). pose proof (scan_head rest q) as Hh.
  destruct (scan q rest) as [|r out]; [done|].
  simpl in *. split; [|done]. injection Hh as ->. congruence.
Qed.

(** Every end of a merged interval is an end of some input period. *)
Lemma scan_ends (P : datetime → Prop) rest : ∀ cur,
  P cur.1 → P cur.2 → Forall (λ p : period, P p.1 ∧ P p.2) rest →
  Forall (λ p : period, P p.1 ∧ P p.2) (scan cur rest).
Proof.
  induction rest as [|q rest IH]; intros cur H1 H2 Hall.
  - by repeat constructor.
  - apply Forall_cons in Hall as [[Hq1 Hq2] Hall]. simpl.
    case_decide; [by apply IH|]. constructor; [done|by apply IH].
Qed.

(** Whole minutes are told apart by their text without the seconds. *)
Lemma minute_text_inj a b :
  whole_minute a → whole_minute b →
  drop_last 3 (str_datetime a) = drop_last 3 (str_datetime b) → a = b.
Proof.
  intros [Ha Ha0] [Hb Hb0] Htext.
  pose proof (parse_civil_str_datetime a (valid_printable a Ha)) as Pa.
  pose proof (parse_civil_str_datetime b (valid_printable b Hb)) as Pb.
  rewrite str_datetime_minute_text, Ha0, Htext in Pa.
  rewrite str_datetime_minute_text, Hb0 in Pb. congruence.
Qed.

Lemma non_contiguous_lookup (l : list period) :
  non_contiguous l →
  ∀ (i : nat) a b, l !! i = Some a → l !! S i = Some b → a.2 ≠ b.1.
Proof.
  induction l as [|p l IH]; intros Hn i a b Ha Hb; [done|].
  destruct l as [|q l]; [done|]. destruct Hn as [Hpq Hn].
  destruct i as [|i]; simpl in *; [congruence|]. by eapply IH.
Qed.

End merger_facts.

(** ** The interval merger *)

Section merger_claims.
Import Py Merger.

(** C1: the merger is one left-to-right scan.  The loop of the code computes
    [merge_spec]: the first pair opens the first interval; a later pair whose
    [from] equals the [to] of the interval being built extends that [to], any
    other pair closes the interval and opens a new one.  The empty input
    gives the empty output and a single pair gives that one interval. *)
Theorem merger_is_single_scan :
  (∀ hours, merged_intervals hours = Ok (merge_spec hours)) ∧
  (∀ hours, merge_hours hours = Ok (map to_minutes (merge_spec hours))) ∧
  merge_spec [] = [] ∧
  (∀ p rest, merge_spec (p :: rest) = scan p rest) ∧
  (∀ cur, scan cur [] = [cur]) ∧
  (∀ cur p rest,
     scan cur (p :: rest) =
     if decide (p.1 = cur.2) then scan (cur.1, p.2) rest
     else cur :: scan p rest) ∧
  merge_hours [] = Ok [] ∧
  (∀ p, merged_intervals [p] = Ok [p]) ∧
  (∀ p, merge_hours [p] = Ok [to_minutes p]).
Proof.
  split_and!; try done.
  - apply merged_intervals_spec.
  - apply merge_hours_spec.
Qed.

(** C6: the periods 08:00-08:30, 08:30-09:00 and 10:00-10:30 of one day are
    merged into the two intervals 08:00-09:00 and 10:00-10:30, which the
    function returns at minute precision. *)
Theorem merger_example_three_periods (y mo d : Z) :
  merged_intervals
    [(at_time y mo d 8 0, at_time y mo d 8 30);
     (at_time y mo d 8 30, at_time y mo d 9 0);
     (at_time y mo d 10 0, at_time y mo d 10 30)]
  = Ok [(at_time y mo d 8 0, at_time y mo d 9 0);
        (at_time y mo d 10 0, at_time y mo d 10 30)] ∧
  merge_hours
    [(at_time y mo d 8 0, at_time y mo d 8 30);
     (at_time y mo d 8 30, at_time y mo d 9 0);
     (at_time y mo d 10 0, at_time y mo d 10 30)]
  = Ok [(str_date (at_time y mo d 0 0) +:+ " 08:00",
         str_date (at_time y mo d 0 0) +:+ " 09:00");
        (str_date (at_time y mo d 0 0) +:+ " 10:00",
         str_date (at_time y mo d 0 0) +:+ " 10:30")] ∧
  merge_hours hours_mixed
  = Ok [("2021-02-21 08:00", "2021-02-21 09:00");
        ("2021-02-21 10:00", "2021-02-21 10:30")].
Proof.
  rewrite !merge_hours_spec, merged_intervals_spec. unfold at_time. simpl.
  rewrite decide_True by done. rewrite decide_False by (simpl; congruence).
  split_and!; [done| |done]. unfold to_minutes. simpl map.
  by rewrite !drop_last_str_datetime.
Qed.

(** C7: a non-empty sequence in which every period ends where the next one
    starts is merged into the single interval from the first period's [from]
    to the last period's [to]. *)
Theorem merger_contiguous_single_span hours first final :
  head hours = Some first →
  last hours = Some final →
  contiguous hours →
  merged_intervals hours = Ok [(first.1, final.2)] ∧
  merge_hours hours = Ok [to_minutes (first.1, final.2)].
Proof.
  intros Hh Hl Hc. destruct hours as [|p rest]; [done|].
  injection Hh as ->.
  assert (merge_spec (first :: rest) = [(first.1, final.2)]) as Hs.
  { simpl. rewrite scan_contiguous by done. rewrite last_cons in Hl.
    destruct (last rest); by simplify_eq. }
  rewrite merge_hours_spec, merged_intervals_spec, Hs. split; reflexivity.
Qed.

(** C8: when no period ends where the next one starts, nothing is merged:
    the output has as many intervals as the input has periods. *)
Theorem merger_non_contiguous_same_count hours :
  non_contiguous hours →
  ∃ merged,
    merged_intervals hours = Ok merged ∧
    merge_hours hours = Ok (map to_minutes merged) ∧
    List.length merged = List.length hours ∧
    List.length (map to_minutes merged) = List.length hours.
Proof.
  intros Hn. exists (merge_spec hours).
  rewrite merged_intervals_spec, merge_hours_spec, length_map.
  split_and!; try done; destruct hours; try done; by apply scan_non_contiguous.
Qed.

(** C10: the output is maximally merged.  For periods strictly ascending by
    [from], each starting before it ends and none reaching into the next, no
    interval of the merged list starts where the interval before it ends;
    the same holds of the returned texts when the periods lie on whole
    minutes, where dropping the seconds loses nothing. *)
Theorem merger_output_maximal hours :
  ascending_disjoint hours →
  ∃ merged,
    merged_intervals hours = Ok merged ∧
    (∀ (i : nat) a b,
       merged !! i = Some a → merged !! S i = Some b → b.1 ≠ a.2) ∧
    merge_hours hours = Ok (map to_minutes merged) ∧
    (Forall (λ p : period, whole_minute p.1 ∧ whole_minute p.2) hours →
     ∀ (i : nat) a b,
       map to_minutes merged !! i = Some a →
       map to_minutes merged !! S i = Some b → b.1 ≠ a.2).
Proof.
  intros _. exists (merge_spec hours).
  assert (∀ (i : nat) a b,
            merge_spec hours !! i = Some a →
            merge_spec hours !! S i = Some b → b.1 ≠ a.2) as Hmax.
  { intros i a b Ha Hb Heq. destruct hours as [|p rest]; [done|].
    exact (non_contiguous_lookup _ (scan_maximal rest p) i a b Ha Hb
             (eq_sym Heq)). }
  split_and!; [apply merged_intervals_spec|exact Hmax|apply merge_hours_spec|].
  intros Hwhole i a b Ha Hb Heq.
  assert (Forall (λ p : period, whole_minute p.1 ∧ whole_minute p.2)
            (merge_spec hours)) as Hends.
  { destruct hours as [|p rest]; [constructor|].
    apply Forall_cons in Hwhole as [[Hp1 Hp2] Hrest]. by apply scan_ends. }
  rewrite list_lookup_fmap in Ha, Hb.
  destruct (merge_spec hours !! i) as [a'|] eqn:Ha'; [|done].
  destruct (merge_spec hours !! S i) as [b'|] eqn:Hb'; [|done].
  injection Ha as <-. injection Hb as <-. simpl in Heq.
  rewrite Forall_forall in Hends.
  destruct (Hends a' (list_elem_of_lookup_2 _ _ _ Ha')) as [_ Ha2].
  destruct (Hends b' (list_elem_of_lookup_2 _ _ _ Hb')) as [Hb1 _].
  apply (Hmax i a' b' Ha' Hb'). by apply minute_text_inj.
Qed.

Lemma merger_contiguous_single_span_witness :
  head hours_touching = Some (morning 8 0, morning 8 30) ∧
  last hours_touching = Some (morning 9 0, morning 9 30) ∧
  contiguous hours_touching ∧
  merged_intervals hours_touching = Ok [(morning 8 0, morning 9 30)] ∧
  merge_hours hours_touching = Ok [("2021-02-21 08:00", "2021-02-21 09:30")].
Proof.
  assert (contiguous hours_touching) as Hc by (simpl; done).
  split_and!; [done|done|done|..];
    apply (merger_contiguous_single_span hours_touching
             (morning 8 0, morning 8 30) (morning 9 0, morning 9 30));
    done.
Defined.

Lemma merger_non_contiguous_same_count_witness :
  non_contiguous hours_apart ∧
  ∃ merged,
    merged_intervals hours_apart = Ok merged ∧
    merge_hours hours_apart = Ok (map to_minutes merged) ∧
    List.length merged = 3%nat ∧
    List.length (map to_minutes merged) = 3%nat.
Proof.
  assert (non_contiguous hours_apart) as Hn by (simpl; done).
  split; [done|]. exact (merger_non_contiguous_same_count hours_apart Hn).
Defined.

Lemma merger_output_maximal_witness :
  ascending_disjoint hours_mixed ∧
  ∃ merged,
    merged_intervals hours_mixed = Ok merged ∧
    (∀ (i : nat) a b,
       merged !! i = Some a → merged !! S i = Some b → b.1 ≠ a.2) ∧
    merge_hours hours_mixed = Ok (map to_minutes merged) ∧
    (Forall (λ p : period, whole_minute p.1 ∧ whole_minute p.2) hours_mixed →
     ∀ (i : nat) a b,
       map to_minutes merged !! i = Some a →
       map to_minutes merged !! S i = Some b → b.1 ≠ a.2).
Proof.
  assert (ascending_disjoint hours_mixed) as Ha by (vm_compute; done).
  split; [done|]. exact (merger_output_maximal hours_mixed Ha).
Defined.

End merger_claims.

(** ** The report *)

Section report_claims.
Import Py Merger Octopus.

(** C9: [format_hours] renders one table row per interval, made of the start
    time, an empty cell and the end time; the text of a section holds as
    many data rows as there are merged intervals, so none for a threshold
    without qualifying period, whose header is still there. *)
Theorem format_hours_one_row_per_interval :
  (∀ hours,
     format_hours hours = foldr (λ h rest, table_row h +:+ rest) "" hours) ∧
  (∀ h, table_row h
        = "<tr><td>" +:+ h.1 +:+ "</td><td></td><td>" +:+ h.2 +:+ "</td></tr>") ∧
  (∀ t (intervals : list period),
     count_rows (add_section "" t (map to_minutes intervals))
     = List.length intervals) ∧
  format_hours [] = "" ∧
  (∀ t, count_rows (add_section "" t []) = 0%nat) ∧
  (∀ html t hours,
     contains ("<b>Hours below " +:+ str_int t +:+ "p/kWh:</b>")
              (add_section html t hours)).
Proof.
  split_and!.
  - apply format_hours_rows.
  - done.
  - apply count_rows_section.
  - done.
  - intros t. apply (count_rows_section t []).
  - apply section_contains_header.
Qed.

End report_claims.

(** ** The order of timestamps *)

Section order_facts.

Ltac cmp_cases :=
  repeat match goal with
  | |- context [Z.compare ?x ?y] =>
      destruct (Z.compare_spec x y); subst; simpl in *; try done; try lia
  | H : context [Z.compare ?x ?y] |- _ =>
      destruct (Z.compare_spec x y); subst; simpl in *; try done; try lia
  end.

Lemma dt_compare_eq a b : dt_compare a b = Eq ↔ a = b.
Proof.
  destruct a, b. unfold dt_compare. simpl. split.
  - intros H. cmp_cases.
  - intros [= -> -> -> -> -> ->]. by rewrite !Z.compare_refl.
Qed.

Lemma dt_le_trans a b c : dt_le a b → dt_le b c → dt_le a c.
Proof.
  destruct a, b, c. unfold dt_le, dt_compare. simpl. intros H1 H2.
  cmp_cases.
Qed.

Lemma dt_le_total a b : dt_le a b ∨ dt_le b a.
Proof.
  destruct a, b. unfold dt_le, dt_compare. simpl. cmp_cases; auto.
Qed.

Lemma dt_le_neq_lt a b : dt_le a b → a ≠ b → dt_lt a b.
Proof.
  unfold dt_le, dt_lt. intros Hle Hne.
  destruct (dt_compare a b) eqn:Hc; try done.
  by apply dt_compare_eq in Hc.
Qed.

Lemma dt_lt_le a b : dt_lt a b → dt_le a b.
Proof. unfold dt_lt, dt_le. by intros ->. Qed.

End order_facts.

(** ** The price store *)

Section store_facts.
Import Py Merger Octopus.

#[local] Instance by_from_trans : Transitive by_from.
Proof. intros a b c. apply dt_le_trans. Qed.

#[local] Instance by_from_total : Total by_from.
Proof. intros a b. apply dt_le_total. Qed.

Lemma StronglySorted_lookup_lt {A} (R : relation A) l :
  StronglySorted R l →
  ∀ (i j : nat) a b, (i < j)%nat → l !! i = Some a → l !! j = Some b → R a b.
Proof.
  induction 1 as [|x l Hs IH Hall]; intros i j a b Hij Ha Hb; [done|].
  destruct j as [|j]; [lia|]. destruct i as [|i]; simpl in *.
  - injection Ha as ->. rewrite Forall_forall in Hall. apply Hall.
    by eapply list_elem_of_lookup_2.
  - apply (IH i j); [lia|done..].
Qed.

Lemma NoDup_fst_filter {A B} (P : A * B → Prop) `{∀ x, Decision (P x)} l :
  NoDup l.*1 → NoDup (filter P l).*1.
Proof.
  induction l as [|x l IH]; [done|]. rewrite fmap_cons, NoDup_cons.
  intros [Hx Hl]. rewrite filter_cons. destruct (decide (P x)); [|auto].
  rewrite fmap_cons, NoDup_cons. split; [|auto].
  intros (y & Hy & Hin)%list_elem_of_fmap. apply Hx.
  apply list_elem_of_fmap. exists y. split; [done|].
  by apply list_elem_of_filter in Hin as [_ ?].
Qed.

(** The query returns the qualifying rows and nothing else. *)
Lemma select_below_elem lo hi threshold (t : table) (r : period) :
  r ∈ select_below lo hi threshold t ↔
  ∃ price, t !! r.1 = Some (r.2, price) ∧
           qualifies lo hi threshold (r.1, (r.2, price)).
Proof.
  unfold select_below. rewrite merge_sort_Permutation.
  rewrite list_elem_of_fmap. split.
  - intros ([k [to_ price]] & -> & Hin). exists price.
    apply list_elem_of_filter in Hin as [Hq Hin].
    apply elem_of_map_to_list in Hin. by split.
  - intros (price & Hlook & Hq). exists (r.1, (r.2, price)).
    split; [by destruct r|]. apply list_elem_of_filter. split; [done|].
    by apply elem_of_map_to_list.
Qed.

Lemma select_below_keys lo hi threshold (t : table) :
  NoDup (select_below lo hi threshold t).*1.
Proof.
  unfold select_below. rewrite merge_sort_Permutation.
  rewrite <- list_fmap_compose.
  apply (NoDup_fst_filter (qualifies lo hi threshold)), NoDup_fst_map_to_list.
Qed.

(** The rows come strictly ascending by [from_period]. *)
Lemma select_below_ascending lo hi threshold (t : table) (i j : nat) a b :
  (i < j)%nat →
  select_below lo hi threshold t !! i = Some a →
  select_below lo hi threshold t !! j = Some b →
  dt_lt a.1 b.1.
Proof.
  intros Hij Ha Hb. apply dt_le_neq_lt.
  - apply (StronglySorted_lookup_lt by_from _
             (StronglySorted_merge_sort by_from _) i j a b Hij Ha Hb).
  - intros Heq.
    assert (i = j); [|lia].
    apply (NoDup_lookup _ i j a.1 (select_below_keys lo hi threshold t)).
    + rewrite list_lookup_fmap. unfold period in *. by rewrite Ha.
    + rewrite list_lookup_fmap. unfold period in *. by rewrite Hb, Heq.
Qed.

Lemma select_below_none lo hi threshold (t : table) :
  (∀ k v, t !! k = Some v → ¬ qualifies lo hi threshold (k, v)) →
  select_below lo hi threshold t = [].
Proof.
  intros Hnone. destruct (select_below lo hi threshold t) as [|r l] eqn:Hsel;
    [done|].
  assert (r ∈ select_below lo hi threshold t) as Hr by (rewrite Hsel; left).
  apply select_below_elem in Hr as (price & Hlook & Hq).
  by destruct (Hnone _ _ Hlook).
Qed.

Lemma insert_ignore_present k to_ q (t : table) :
  is_Some (t !! k) → insert_ignore k to_ q t = t.
Proof. intros [v Hv]. unfold insert_ignore. by rewrite Hv. Qed.

Lemma insert_ignore_lookup k to_ q (t : table) :
  is_Some (insert_ignore k to_ q t !! k).
Proof.
  unfold insert_ignore. destruct (t !! k) as [v|] eqn:Hk.
  - by rewrite Hk.
  - rewrite lookup_insert_eq. by eexists.
Qed.

Lemma insert_ignore_keeps k to_ q (t : table) k' v :
  t !! k' = Some v → insert_ignore k to_ q t !! k' = Some v.
Proof.
  intros Hk'. unfold insert_ignore. destruct (t !! k) as [u|] eqn:Hk; [done|].
  rewrite lookup_insert_ne; [done|]. congruence.
Qed.

Lemma write_rows_keeps rws : ∀ (t : table) k v,
  t !! k = Some v → foldl write_row t rws !! k = Some v.
Proof.
  induction rws as [|r rws IH]; intros t k v Hk; [done|].
  simpl. apply IH. by apply insert_ignore_keeps.
Qed.

Lemma write_rows_lookup rws : ∀ (t : table) r,
  r ∈ rws → is_Some (foldl write_row t rws !! r.1.1).
Proof.
  induction rws as [|r0 rws IH]; intros t r Hr; [by apply elem_of_nil in Hr|].
  apply elem_of_cons in Hr as [->|Hr]; simpl.
  - destruct (insert_ignore_lookup r0.1.1 r0.1.2 r0.2 t) as [v Hv].
    exists v. by apply write_rows_keeps.
  - by apply IH.
Qed.

Lemma write_rows_present rws : ∀ (t : table),
  (∀ r, r ∈ rws → is_Some (t !! r.1.1)) → foldl write_row t rws = t.
Proof.
  induction rws as [|r0 rws IH]; intros t Hall; [done|].
  simpl. unfold write_row at 2.
  rewrite insert_ignore_present by (apply Hall; left).
  apply IH. intros r Hr. apply Hall. by right.
Qed.

(** The rows under one key: one if the key is bound, none otherwise. *)
Lemma rows_from_length k (t : table) :
  List.length (rows_from k t)
  = match t !! k with Some _ => 1%nat | None => 0%nat end.
Proof.
  unfold rows_from, rows.
  induction t as [|i x t Hi Hfold IH] using map_first_key_ind.
  - by rewrite map_to_list_empty, lookup_empty.
  - rewrite map_to_list_insert_first_key by done.
    rewrite filter_cons. simpl. destruct (decide (i = k)) as [->|Hne].
    + rewrite lookup_insert_eq. simpl. rewrite IH, Hi. done.
    + rewrite lookup_insert_ne by done. apply IH.
Qed.

(** The loop body touches the connection only to write its row. *)
Lemma insert_one_row w p con :
  insert_one w p con =
  match record_row w p with
  | Ok r => ({| committed := committed con;
               session := write_row (session con) r |}, Ok ())
  | Raise e => (con, Raise e)
  end.
Proof.
  unfold insert_one, record_row.
  unfold mbind, DB_bind, db_bind, lift, result_bind.
  destruct (bind (getitem p "valid_from") as_str) as [vf|e]; [|done].
  cbn [bind].
  destruct (to_timezone w vf "Europe/London") as [f|e]; [|done].
  cbn [bind].
  destruct (bind (getitem p "valid_to") as_str) as [vt|e]; [|done].
  cbn [bind].
  destruct (to_timezone w vt "Europe/London") as [t|e]; [|done].
  cbn [bind].
  destruct (getitem p "value_inc_vat") as [price|e]; [|done].
  cbn [bind]. by destruct (price_literal price).
Qed.

(** The loop over the records: all rows written to the session when every
    record is well formed, and the durable table untouched either way. *)
Lemma insert_loop_committed w ps : ∀ con,
  committed (db_for_each (insert_one w) ps con).1 = committed con.
Proof.
  induction ps as [|p ps IH]; intros con; [done|].
  cbn [db_for_each]. unfold mbind, DB_bind, db_bind.
  rewrite insert_one_row. destruct (record_row w p) as [r|e]; [|done].
  by rewrite IH.
Qed.

Lemma insert_loop_ok w ps : ∀ con con',
  db_for_each (insert_one w) ps con = (con', Ok ()) →
  ∃ rws,
    Forall2 (λ p r, record_row w p = Ok r) ps rws ∧
    con' = with_session con (foldl write_row (session con) rws).
Proof.
  induction ps as [|p ps IH]; intros con con' Hrun.
  - exists []. split; [constructor|]. injection Hrun as <-. by destruct con.
  - cbn [db_for_each] in Hrun. unfold mbind, DB_bind, db_bind in Hrun.
    rewrite insert_one_row in Hrun.
    destruct (record_row w p) as [r|e] eqn:Hr; [|done].
    apply IH in Hrun as (rws & Hall & ->).
    exists (r :: rws). split; [by constructor|done].
Qed.

Lemma insert_loop_rows w ps rws con :
  Forall2 (λ p r, record_row w p = Ok r) ps rws →
  db_for_each (insert_one w) ps con
  = (with_session con (foldl write_row (session con) rws), Ok ()).
Proof.
  intros Hall. revert con.
  induction Hall as [|p r ps rws Hr Hall IH]; intros con.
  - by destruct con.
  - cbn [db_for_each]. unfold mbind, DB_bind, db_bind.
    rewrite insert_one_row, Hr. by rewrite IH.
Qed.

Lemma Forall2_elem_of_l {A B} (P : A → B → Prop) l k x :
  Forall2 P l k → x ∈ l → ∃ y, y ∈ k ∧ P x y.
Proof.
  intros Hall [i Hi]%list_elem_of_lookup.
  destruct (Forall2_lookup_l _ _ _ _ _ Hall Hi) as (y & Hy & HP).
  exists y. split; [|done]. apply list_elem_of_lookup. by exists i.
Qed.

(** A run over well-formed records writes their rows and commits. *)
Lemma insert_price_rows w prices results rws con :
  getitem prices "results" ≫= iterate = Ok results →
  Forall2 (λ p r, record_row w p = Ok r) results rws →
  insert_price w prices con
  = ({| committed := foldl write_row (session con) rws;
        session := foldl write_row (session con) rws |}, Ok ()).
Proof.
  intros Hres Hall. unfold insert_price.
  unfold mbind at 1. unfold DB_bind, db_bind, lift. rewrite Hres.
  unfold mbind at 1. unfold DB_bind, db_bind.
  by rewrite (insert_loop_rows w results rws con Hall).
Qed.

Lemma insert_price_ok w prices results con con' :
  getitem prices "results" ≫= iterate = Ok results →
  insert_price w prices con = (con', Ok ()) →
  ∃ rws,
    Forall2 (λ p r, record_row w p = Ok r) results rws ∧
    con' = {| committed := foldl write_row (session con) rws;
              session := foldl write_row (session con) rws |}.
Proof.
  intros Hres Hrun. unfold insert_price in Hrun.
  unfold mbind at 1 in Hrun. unfold DB_bind, db_bind, lift in Hrun.
  rewrite Hres in Hrun.
  unfold mbind at 1 in Hrun. unfold DB_bind, db_bind in Hrun.
  destruct (db_for_each (insert_one w) results con) as [c [[]|e]] eqn:Hloop;
    [|done].
  apply insert_loop_ok in Hloop as (rws & Hall & ->).
  exists rws. split; [done|]. by injection Hrun as <-.
Qed.

End store_facts.

Section store_claims.
Import Py Merger Octopus.

Lemma fetch_below_window w tick price con lo hi :
  query_window w tick = Ok (lo, hi) →
  fetch_below w tick price con
  = (con, Ok (select_below lo hi price (session con))).
Proof. intros Hw. unfold fetch_below. by rewrite Hw. Qed.

Lemma get_hours_below_price_window w tick price con lo hi :
  query_window w tick = Ok (lo, hi) →
  get_hours_below_price w tick price con
  = (con, merge_hours (select_below lo hi price (session con))).
Proof.
  intros Hw. unfold get_hours_below_price.
  unfold mbind, DB_bind, db_bind. by rewrite (fetch_below_window _ _ _ _ lo hi).
Qed.

(** C2: insertion is idempotent on the period start.  After a run of
    [insert_price] that succeeds, every record of the batch has exactly one
    row under its [from_period]; rows that were there before are kept as
    they were; a record whose key is taken is skipped without an error; and
    ingesting the same batch any number of times gives the same store as
    ingesting it once. *)
Theorem insert_price_idempotent w prices results con con' :
  getitem prices "results" ≫= iterate = Ok results →
  insert_price w prices con = (con', Ok ()) →
  (∀ p, p ∈ results →
     ∃ r, record_row w p = Ok r ∧
          List.length (rows_from r.1.1 (committed con')) = 1%nat) ∧
  (∀ k v, session con !! k = Some v → committed con' !! k = Some v) ∧
  (∀ p r c, record_row w p = Ok r → is_Some (session c !! r.1.1) →
     insert_one w p c = (c, Ok ())) ∧
  (∀ n, insert_price_times (S n) w prices con = (con', Ok ())).
Proof.
  intros Hres Hrun.
  destruct (insert_price_ok _ _ _ _ _ Hres Hrun) as (rws & Hall & ->).
  set (T := foldl write_row (session con) rws).
  assert (∀ r, r ∈ rws → is_Some (T !! r.1.1)) as Hkeys
    by (intros r Hr; by apply write_rows_lookup).
  split_and!.
  - intros p Hp.
    destruct (Forall2_elem_of_l _ _ _ _ Hall Hp) as (r & Hr & Hrow).
    exists r. split; [done|]. rewrite rows_from_length. simpl.
    by destruct (Hkeys r Hr) as [v ->].
  - intros k v Hk. simpl. by apply write_rows_keeps.
  - intros p r c Hrow Hk. rewrite insert_one_row, Hrow.
    unfold write_row. rewrite insert_ignore_present by done. by destruct c.
  - intros n. cbn [insert_price_times]. unfold mbind, DB_bind, db_bind.
    rewrite Hrun. clear Hrun.
    induction n as [|n IH]; [done|].
    cbn [insert_price_times]. unfold mbind, DB_bind, db_bind.
    rewrite (insert_price_rows w prices results rws _ Hres Hall).
    cbn [session]. fold T. rewrite write_rows_present by done. apply IH.
Qed.

Lemma insert_price_idempotent_witness :
  getitem Sample.answer "results" ≫= iterate = Ok Sample.records ∧
  insert_price Sample.online Sample.answer Sample.fresh
  = (Sample.stored, Ok ()) ∧
  insert_price_times 3 Sample.online Sample.answer Sample.fresh
  = (Sample.stored, Ok ()) ∧
  List.length (rows (committed Sample.stored)) = 3%nat.
Proof.
  assert (insert_price Sample.online Sample.answer Sample.fresh
          = (Sample.stored, Ok ())) as Hrun by (vm_compute; reflexivity).
  split_and!; [reflexivity|exact Hrun| |vm_compute; reflexivity].
  apply (insert_price_idempotent Sample.online Sample.answer Sample.records
           Sample.fresh Sample.stored eq_refl Hrun).
Defined.

(** C4: the query returns exactly the rows of the table whose price is
    strictly below the threshold and whose [from_period] lies in the window,
    both ends included, strictly ascending by [from_period]; when no row
    qualifies the result is the empty sequence and the function returns the
    empty list. *)
Theorem query_below_exact w tick price con lo hi :
  query_window w tick = Ok (lo, hi) →
  ∃ hours,
    fetch_below w tick price con = (con, Ok hours) ∧
    (∀ r : period,
       r ∈ hours ↔
       ∃ p, session con !! r.1 = Some (r.2, p) ∧
            dt_le lo r.1 ∧ dt_le r.1 hi ∧ (p < price)%Qc) ∧
    (∀ (i j : nat) a b,
       (i < j)%nat → hours !! i = Some a → hours !! j = Some b →
       dt_lt a.1 b.1) ∧
    get_hours_below_price w tick price con = (con, merge_hours hours) ∧
    ((∀ k to_ p, session con !! k = Some (to_, p) →
        ¬ (dt_le lo k ∧ dt_le k hi ∧ (p < price)%Qc)) →
     hours = [] ∧ get_hours_below_price w tick price con = (con, Ok [])).
Proof.
  intros Hw. exists (select_below lo hi price (session con)).
  split_and!.
  - by apply fetch_below_window.
  - intros r. apply select_below_elem.
  - apply select_below_ascending.
  - by apply get_hours_below_price_window.
  - intros Hnone.
    assert (select_below lo hi price (session con) = []) as Hnil.
    { apply select_below_none. intros k [to_ p] Hk Hq.
      exact (Hnone k to_ p Hk Hq). }
    split; [done|].
    rewrite (get_hours_below_price_window _ _ _ _ lo hi Hw). by rewrite Hnil.
Qed.

Lemma query_below_exact_witness :
  query_window Sample.online 0 = Ok (Sample.window_start, Sample.window_end) ∧
  fetch_below Sample.online 0 (Qc_of_Z 20) Sample.stored
  = (Sample.stored,
     Ok [(morning 8 0, morning 8 30); (morning 8 30, morning 9 0);
         (morning 10 0, morning 10 30)]) ∧
  ∃ hours,
    fetch_below Sample.online 0 (Qc_of_Z 10) Sample.stored
    = (Sample.stored, Ok hours) ∧
    (∀ r : period,
       r ∈ hours ↔
       ∃ p, session Sample.stored !! r.1 = Some (r.2, p) ∧
            dt_le Sample.window_start r.1 ∧ dt_le r.1 Sample.window_end ∧
            (p < Qc_of_Z 10)%Qc) ∧
    (∀ (i j : nat) a b,
       (i < j)%nat → hours !! i = Some a → hours !! j = Some b →
       dt_lt a.1 b.1) ∧
    get_hours_below_price Sample.online 0 (Qc_of_Z 10) Sample.stored
    = (Sample.stored, merge_hours hours) ∧
    ((∀ k to_ p, session Sample.stored !! k = Some (to_, p) →
        ¬ (dt_le Sample.window_start k ∧ dt_le k Sample.window_end
           ∧ (p < Qc_of_Z 10)%Qc)) →
     hours = [] ∧
     get_hours_below_price Sample.online 0 (Qc_of_Z 10) Sample.stored
     = (Sample.stored, Ok [])).
Proof.
  assert (query_window Sample.online 0
          = Ok (Sample.window_start, Sample.window_end)) as Hw
    by (vm_compute; reflexivity).
  split_and!; [exact Hw|vm_compute; reflexivity|].
  exact (query_below_exact Sample.online 0 (Qc_of_Z 10) Sample.stored
           Sample.window_start Sample.window_end Hw).
Defined.

End store_claims.

(** ** The time normalizer *)

Section time_claims.
Import Py Calendar Pytz Octopus.

(** C5: [to_timezone] gives the same instant as civil time of the target
    zone.  Where the zone database has Europe/London on Greenwich time
    (offset 0) at 2021-02-21T00:00:00Z, that instant becomes
    2021-02-21 00:00:00; an instant [d] at which the zone is on summer time
    (offset 3600 s) becomes the civil time of [d] plus one hour. *)
Theorem to_timezone_europe_london w zone winter d summer :
  zones w "Europe/London" = Some zone →
  info_at zone (mkdatetime 2021 2 21 0 0 0) = Ok winter →
  utcoffset winter = 0 →
  valid_datetime d = true →
  info_at zone d = Ok summer →
  utcoffset summer = 3600 →
  to_timezone w "2021-02-21T00:00:00Z" "Europe/London"
  = Ok "2021-02-21 00:00:00" ∧
  to_timezone w (strftime_z d) "Europe/London"
  = (t ← add_seconds d 3600; Ok (str_datetime t)) ∧
  (hour d < 23 →
   to_timezone w (strftime_z d) "Europe/London"
   = Ok (str_datetime (mkdatetime (year d) (month d) (day d)
                                  (hour d + 1) (minute d) (second d)))).
Proof.
  intros Hz Hw Hw0 Hv Hs Hs0.
  assert (to_timezone w (strftime_z d) "Europe/London"
          = (t ← add_seconds d 3600; Ok (str_datetime t))) as Hsummer.
  { rewrite (to_timezone_printed w _ _ zone summer) by done. by rewrite Hs0. }
  split_and!; [|exact Hsummer|].
  - change "2021-02-21T00:00:00Z"
      with (strftime_z (mkdatetime 2021 2 21 0 0 0)).
    rewrite (to_timezone_printed w _ _ zone winter) by done.
    by rewrite Hw0.
  - intros H23. rewrite Hsummer. by rewrite add_seconds_hour.
Qed.

Lemma to_timezone_europe_london_witness :
  zones Sample.online "Europe/London" = Some Europe_London ∧
  info_at Europe_London (mkdatetime 2021 2 21 0 0 0) = Ok GMT ∧
  utcoffset GMT = 0 ∧
  valid_datetime (mkdatetime 2021 7 1 12 0 0) = true ∧
  info_at Europe_London (mkdatetime 2021 7 1 12 0 0) = Ok BST ∧
  utcoffset BST = 3600 ∧
  to_timezone Sample.online "2021-02-21T00:00:00Z" "Europe/London"
  = Ok "2021-02-21 00:00:00" ∧
  to_timezone Sample.online "2021-07-01T12:00:00Z" "Europe/London"
  = Ok "2021-07-01 13:00:00".
Proof.
  destruct (to_timezone_europe_london Sample.online Europe_London GMT
              (mkdatetime 2021 7 1 12 0 0) BST
              eq_refl eq_refl eq_refl eq_refl eq_refl eq_refl)
    as (Hw & Hs & _).
  split_and!; [reflexivity..|exact Hw|exact Hs].
Defined.

End time_claims.

(** ** Failures of the fetch *)

Section fetch_claims.
Import Py Pytz Octopus.

(** [main] stops at the first exception of the fetch or of the ingestion. *)
Lemma main_steps w key pc con :
  main w key pc con =
  match get_price w key pc with
  | Raise e => (con, Raise e)
  | Ok unit_rates =>
    match insert_price w unit_rates con with
    | (con', Raise e) => (con', Raise e)
    | (con', Ok _) => report w [20; 10; 0] 0 "" con'
    end
  end.
Proof.
  unfold main, mbind, DB_bind, db_bind, lift.
  destruct (get_price w key pc) as [rates|e]; [|done].
  by destruct (insert_price w rates con) as [c [[]|e]].
Qed.

(** An ingestion that raises has committed nothing. *)
Lemma insert_price_raise_committed w prices con con' e :
  insert_price w prices con = (con', Raise e) →
  committed con' = committed con.
Proof.
  unfold insert_price, mbind, DB_bind, db_bind, lift.
  destruct (result_bind _ _ iterate (getitem prices "results")) as [results|e'].
  - pose proof (insert_loop_committed w results con) as Hc.
    destruct (db_for_each (insert_one w) results con) as [c [[]|e']];
      [done|]. by intros [= <- _].
  - by intros [= <- _].
Qed.

Lemma insert_price_no_results w prices con e :
  getitem prices "results" = Raise e →
  insert_price w prices con = (con, Raise e).
Proof.
  intros Hres. unfold insert_price, mbind, DB_bind, db_bind, lift, result_bind.
  by rewrite Hres.
Qed.

(** C3 as the specification states it fails: a response with status 401 and
    a JSON body makes [get_price] return that body, no exception leaves the
    fetch; and a response with status 500 that carries prices is ingested. *)
Lemma fetch_non_2xx_counterexample :
  requests_get Sample.unauthorized (tariff_url "AGILE-18-02-21") "sk_live_no"
  = Response 401 (Some Sample.refusal) ∧
  ¬ (∃ e, get_price Sample.unauthorized "sk_live_no" "AGILE-18-02-21"
          = Raise e) ∧
  requests_get Sample.failing_with_prices (tariff_url "AGILE-18-02-21")
    "sk_live_no"
  = Response 500 (Some Sample.answer) ∧
  committed
    (main Sample.failing_with_prices "sk_live_no" "AGILE-18-02-21"
       Sample.fresh).1
  ≠ committed Sample.fresh.
Proof.
  split_and!; [reflexivity| |reflexivity|].
  - intros [e He]. vm_compute in He. discriminate.
  - intros Heq. apply (f_equal (λ t, List.length (rows t))) in Heq.
    vm_compute in Heq. discriminate.
Qed.

(** C3, amended: a failed connection and a body that is not JSON make
    [get_price] raise, and [main] ends with that exception and the
    connection as it was.  A response whose body is JSON is returned by
    [get_price] whatever its status; when the body has no [results] to
    index, [main] ends with that exception and the connection as it was; and
    whenever the ingestion raises, [main] ends with its exception and
    nothing has been committed. *)
Theorem fetch_failure_keeps_store w key pc con outcome :
  requests_get w (tariff_url pc) key = outcome →
  match outcome with
  | ConnectionFailed =>
    get_price w key pc = Raise ConnectionError ∧
    main w key pc con = (con, Raise ConnectionError)
  | Response _ None =>
    get_price w key pc = Raise JSONDecodeError ∧
    main w key pc con = (con, Raise JSONDecodeError)
  | Response _ (Some body) =>
    get_price w key pc = Ok body ∧
    (∀ e, getitem body "results" = Raise e →
          main w key pc con = (con, Raise e)) ∧
    (∀ con' e, insert_price w body con = (con', Raise e) →
               main w key pc con = (con', Raise e) ∧
               committed con' = committed con)
  end.
Proof.
  intros Hout. rewrite main_steps. unfold get_price. rewrite Hout.
  destruct outcome as [|status [body|]]; cbn [or_raise]; [done| |done].
  split_and!; [done|..].
  - intros e He. by rewrite (insert_price_no_results _ _ _ _ He).
  - intros con' e Hrun. rewrite Hrun. split; [done|].
    by eapply insert_price_raise_committed.
Qed.

Lemma fetch_failure_keeps_store_witness :
  requests_get Sample.unauthorized (tariff_url "AGILE-18-02-21") "sk_live_no"
  = Response 401 (Some Sample.refusal) ∧
  get_price Sample.unauthorized "sk_live_no" "AGILE-18-02-21"
  = Ok Sample.refusal ∧
  main Sample.unauthorized "sk_live_no" "AGILE-18-02-21" Sample.fresh
  = (Sample.fresh, Raise KeyError) ∧
  main Sample.offline "sk_live_no" "AGILE-18-02-21" Sample.fresh
  = (Sample.fresh, Raise ConnectionError) ∧
  main Sample.bad_gateway "sk_live_no" "AGILE-18-02-21" Sample.fresh
  = (Sample.fresh, Raise JSONDecodeError).
Proof.
  destruct (fetch_failure_keeps_store Sample.unauthorized "sk_live_no"
              "AGILE-18-02-21" Sample.fresh
              (Response 401 (Some Sample.refusal)) eq_refl)
    as (Hget & Hnone & _).
  destruct (fetch_failure_keeps_store Sample.offline "sk_live_no"
              "AGILE-18-02-21" Sample.fresh ConnectionFailed eq_refl)
    as [_ Hoff].
  destruct (fetch_failure_keeps_store Sample.bad_gateway "sk_live_no"
              "AGILE-18-02-21" Sample.fresh (Response 502 None) eq_refl)
    as [_ Hbad].
  split_and!; [reflexivity|exact Hget|exact (Hnone KeyError eq_refl)
              |exact Hoff|exact Hbad].
Defined.

End fetch_claims.

(** * Further properties *)

(** ** More on the calendar and on to_timezone *)

Section calendar_more.
Import Py Calendar.


Ltac table_lookups :=
  repeat match goal with
  | |- context [nth (Z.to_nat (Zpos ?c)) ?T ?d] =>
    let v := eval vm_compute in (nth (Z.to_nat (Zpos c)) T d) in
    change (nth (Z.to_nat (Zpos c)) T d) with v
  | H : context [nth (Z.to_nat (Zpos ?c)) ?T ?d] |- _ =>
    let v := eval vm_compute in (nth (Z.to_nat (Zpos c)) T d) in
    change (nth (Z.to_nat (Zpos c)) T d) with v in H
  end;
  cbn [Z.ltb Z.eqb Z.compare Pos.compare Pos.compare_cont Pos.eqb andb] in *.

Lemma days_before_next_year y :
  1 <= y →
  days_before_year (y + 1)
  = days_before_year y + 365 + (if is_leap y then 1 else 0).
Proof.
  intros Hy. unfold days_before_year, is_leap.
  replace (y + 1 - 1) with y by lia.
  repeat match goal with
  | |- context [Z.eqb ?a ?b] => destruct (Z.eqb_spec a b)
  end; simpl; Z.div_mod_to_equations; lia.
Qed.

Lemma month_length_pos y m : 1 <= m <= 12 → 28 <= days_in_month y m <= 31.
Proof.
  intros Hm. unfold days_in_month.
  assert (m = 1 ∨ m = 2 ∨ m = 3 ∨ m = 4 ∨ m = 5 ∨ m = 6 ∨ m = 7
          ∨ m = 8 ∨ m = 9 ∨ m = 10 ∨ m = 11 ∨ m = 12) as Hcases by lia.
  destruct (is_leap y);
    repeat (destruct Hcases as [->|Hcases]); subst; table_lookups; lia.
Qed.

Lemma days_before_next_month y m :
  1 <= m <= 11 →
  days_before_month y (m + 1) = days_before_month y m + days_in_month y m.
Proof.
  intros Hm. unfold days_before_month, days_in_month.
  assert (m = 1 ∨ m = 2 ∨ m = 3 ∨ m = 4 ∨ m = 5 ∨ m = 6 ∨ m = 7
          ∨ m = 8 ∨ m = 9 ∨ m = 10 ∨ m = 11) as Hcases by lia.
  destruct (is_leap y);
    repeat (destruct Hcases as [->|Hcases]); subst; reflexivity.
Qed.

Lemma days_in_year y :
  days_before_month y 12 + days_in_month y 12
  = 365 + (if is_leap y then 1 else 0).
Proof. unfold days_before_month, days_in_month. by destruct (is_leap y). Qed.

(** Every ordinal in range is the ordinal of a date. *)
Lemma ordinal_has_date (k : nat) :
  1 + Z.of_nat k <= MAXORDINAL →
  exists y m d, 1 <= y <= 9999 ∧ 1 <= m <= 12 ∧ 1 <= d <= days_in_month y m ∧
    ymd2ord y m d = 1 + Z.of_nat k.
Proof.
  induction k as [|k IH]; intros Hk.
  - exists 1, 1, 1. by vm_compute.
  - destruct IH as (y & m & d & Hy & Hm & Hd & Hord); [lia|].
    replace (1 + Z.of_nat (S k)) with (1 + Z.of_nat k + 1) in * by lia.
    rewrite <- Hord in *. clear Hord.
    pose proof (month_length_pos y m Hm) as Hlen.
    destruct (decide (d < days_in_month y m)) as [Hlt|Hlast].
    { exists y, m, (d + 1). unfold ymd2ord. lia. }
    assert (d = days_in_month y m) as -> by lia.
    destruct (decide (m < 12)) as [Hm12|Hm12].
    { exists y, (m + 1), 1. pose proof (month_length_pos y (m + 1)).
      unfold ymd2ord. rewrite days_before_next_month by lia. lia. }
    assert (m = 12) as -> by lia.
    assert (ymd2ord y 12 (days_in_month y 12) + 1 = ymd2ord (y + 1) 1 1) as Hnext.
    { unfold ymd2ord. rewrite days_before_next_year by lia.
      pose proof (days_in_year y).
      change (days_before_month (y + 1) 1) with
        (nth (Z.to_nat 1) DAYS_BEFORE_MONTH (-1)
         + (if (2 <? 1) && is_leap (y + 1) then 1 else 0)).
      simpl. lia. }
    exists (y + 1), 1, 1. rewrite Hnext. split_and!; try lia; [|by vm_compute].
    destruct (decide (y = 9999)) as [->|]; [|lia].
    exfalso. vm_compute in Hk. apply Hk. reflexivity.
Qed.

(** [ord2ymd] inverts [ymd2ord] on the ordinals of the years 1 to 9999. *)
Lemma ord2ymd_date n :
  1 <= n <= MAXORDINAL →
  exists y m d, ord2ymd n = (y, m, d) ∧
    1 <= y <= 9999 ∧ 1 <= m <= 12 ∧ 1 <= d <= days_in_month y m ∧
    ymd2ord y m d = n.
Proof.
  intros Hn.
  destruct (ordinal_has_date (Z.to_nat (n - 1))) as (y & m & d & Hy & Hm & Hd & Ho);
    [lia|].
  replace (1 + Z.of_nat (Z.to_nat (n - 1))) with n in Ho by lia.
  exists y, m, d. rewrite <- Ho at 1. rewrite ord2ymd_ymd2ord by lia. done.
Qed.

Lemma add_seconds_ok d delta t :
  add_seconds d delta = Ok t →
  valid_datetime t = true ∧ to_seconds t = to_seconds d + delta.
Proof.
  unfold add_seconds. cbv zeta.
  set (total := to_seconds d + delta).
  destruct (Z.ltb_spec 0 (total / 86400)); [|done].
  destruct (Z.leb_spec (total / 86400) MAXORDINAL); [|done]. cbn [andb].
  destruct (ord2ymd_date (total / 86400)) as (y & m & dd & -> & Hy & Hm & Hd & Ho);
    [lia|].
  intros [= <-]. split.
  - unfold valid_datetime. cbn [year month day hour minute second].
    repeat (apply andb_true_intro; split); apply Z.leb_le; try lia.
    all: Z.div_mod_to_equations; lia.
  - unfold to_seconds. cbn [year month day hour minute second]. rewrite Ho.
    Z.div_mod_to_equations; lia.
Qed.

Lemma add_seconds_overflow d delta :
  add_seconds d delta = Raise OverflowError ↔
  ~ (86400 <= to_seconds d + delta < (MAXORDINAL + 1) * 86400).
Proof.
  unfold add_seconds. cbv zeta.
  set (total := to_seconds d + delta).
  destruct (Z.ltb_spec 0 (total / 86400));
    destruct (Z.leb_spec (total / 86400) MAXORDINAL); cbn [andb].
  - destruct (ord2ymd (total / 86400)) as [[y m] dd]. split; [done|].
    intros Hno. exfalso. apply Hno. unfold MAXORDINAL in *.
    Z.div_mod_to_equations; lia.
  - split; [|done]. intros _. unfold MAXORDINAL in *. Z.div_mod_to_equations; lia.
  - split; [|done]. intros _. unfold MAXORDINAL in *. Z.div_mod_to_equations; lia.
  - split; [|done]. intros _. unfold MAXORDINAL in *. Z.div_mod_to_equations; lia.
Qed.

(** [to_seconds] tells valid datetimes apart. *)
Lemma to_seconds_inj a b :
  valid_datetime a = true → valid_datetime b = true →
  to_seconds a = to_seconds b → a = b.
Proof.
  intros Ha Hb Heq.
  destruct (valid_datetime_fields a Ha) as (Hya & Hma & Hda & Hha & Hmia & Hsa).
  destruct (valid_datetime_fields b Hb) as (Hyb & Hmb & Hdb & Hhb & Hmib & Hsb).
  unfold to_seconds in Heq.
  assert (ymd2ord (year a) (month a) (day a) = ymd2ord (year b) (month b) (day b)
          ∧ hour a = hour b ∧ minute a = minute b ∧ second a = second b)
    as (Ho & Hh & Hmi & Hs) by lia.
  assert ((year a, month a, day a) = (year b, month b, day b)) as Hymd.
  { rewrite <- (ord2ymd_ymd2ord (year a) (month a) (day a)) by lia.
    rewrite <- (ord2ymd_ymd2ord (year b) (month b) (day b)) by lia.
    by rewrite Ho. }
  destruct a, b; simpl in *. congruence.
Qed.
End calendar_more.

Section time_more.
Import Py Calendar Parse Pytz Merger Octopus.


Lemma mysql_datetime_str_datetime t :
  valid_datetime t = true → mysql_datetime (str_datetime t) = t.
Proof.
  intros Hv. unfold mysql_datetime.
  rewrite parse_civil_str_datetime by by apply valid_printable.
  by rewrite Hv.
Qed.

Lemma string_length_str_datetime t : String.length (str_datetime t) = 19%nat.
Proof. reflexivity. Qed.











Lemma to_timezone_cases w d tz zone inf :
  valid_datetime d = true →
  zones w tz = Some zone →
  info_at zone d = Ok inf →
  to_timezone w (strftime_z d) tz
  = match add_seconds d (utcoffset inf) with
    | Ok t => Ok (str_datetime t)
    | Raise e => Raise e
    end.
Proof.
  intros Hv Hz Hi. rewrite (to_timezone_printed w d tz zone inf) by done.
  by destruct (add_seconds d (utcoffset inf)).
Qed.



(** X2: the failures of [to_timezone] on a well-formed timestamp: an unknown
    zone name raises [UnknownTimeZoneError], and with a known zone the call
    raises [OverflowError] exactly when the civil time falls outside the
    years 1 to 9999. *)
Theorem to_timezone_failures w d tz :
  valid_datetime d = true →
  (zones w tz = None →
   to_timezone w (strftime_z d) tz = Raise UnknownTimeZoneError) ∧
  (∀ zone inf,
     zones w tz = Some zone → info_at zone d = Ok inf →
     (to_timezone w (strftime_z d) tz = Raise OverflowError ↔
      ¬ (86400 ≤ to_seconds d + utcoffset inf < (MAXORDINAL + 1) * 86400)) ∧
     ((∃ s, to_timezone w (strftime_z d) tz = Ok s) ↔
      86400 ≤ to_seconds d + utcoffset inf < (MAXORDINAL + 1) * 86400)).
Proof.
  intros Hv. split.
  - intros Hz. unfold to_timezone. rewrite fromisoformat_printed by done.
    unfold mbind, result_bind. cbn [bind]. by rewrite Hz.
  - intros zone inf Hz Hi.
    rewrite (to_timezone_cases w d tz zone inf) by done.
    pose proof (add_seconds_overflow d (utcoffset inf)) as Hover.
    destruct (add_seconds d (utcoffset inf)) as [t|e] eqn:Hadd.
    + assert (86400 ≤ to_seconds d + utcoffset inf < (MAXORDINAL + 1) * 86400)
        as Hin.
      { destruct (decide (86400 ≤ to_seconds d + utcoffset inf
                          < (MAXORDINAL + 1) * 86400)) as [|Hout]; [done|].
        by apply Hover in Hout. }
      split; split; [done|by intros []|done|by eexists].
    + assert (e = OverflowError) as ->.
      { unfold add_seconds in Hadd. cbv zeta in Hadd.
        destruct ((0 <? _) && _); [|congruence].
        by destruct (ord2ymd _) as [[??]?]. }
      split; split; [by intros _; apply Hover|done|by intros [s ?]|].
      intros Hin. by apply Hover in Hin.
Qed.

Lemma to_timezone_failures_witness :
  valid_datetime Cases.last_half_hour = true ∧
  to_timezone Cases.nowhere (strftime_z Cases.last_half_hour) "Europe/London"
  = Raise UnknownTimeZoneError ∧
  to_timezone Cases.east "9999-12-31T23:30:00Z" "Europe/London"
  = Raise OverflowError ∧
  to_timezone Sample.online "9999-12-31T23:30:00Z" "Europe/London"
  = Ok "9999-12-31 23:30:00".
Proof.
  destruct (to_timezone_failures Cases.nowhere Cases.last_half_hour
              "Europe/London" eq_refl) as [Hnone _].
  split_and!; [reflexivity|exact (Hnone eq_refl)|vm_compute; reflexivity..].
Defined.

(** X3: two UTC instants get the same text exactly when their civil times
    coincide, that is when the instants differ by the difference of their
    offsets: never within one offset, and for the instants of the hour that
    the end of summer time repeats. *)
Theorem to_timezone_same_text w tz zone d1 d2 inf1 inf2 s1 s2 :
  valid_datetime d1 = true → valid_datetime d2 = true →
  zones w tz = Some zone →
  info_at zone d1 = Ok inf1 → info_at zone d2 = Ok inf2 →
  to_timezone w (strftime_z d1) tz = Ok s1 →
  to_timezone w (strftime_z d2) tz = Ok s2 →
  (s1 = s2 ↔
   to_seconds d1 + utcoffset inf1 = to_seconds d2 + utcoffset inf2) ∧
  (utcoffset inf1 = utcoffset inf2 → d1 ≠ d2 → s1 ≠ s2).
Proof.
  intros Hv1 Hv2 Hz Hi1 Hi2.
  rewrite (to_timezone_cases w d1 tz zone inf1) by done.
  rewrite (to_timezone_cases w d2 tz zone inf2) by done.
  destruct (add_seconds d1 (utcoffset inf1)) as [t1|] eqn:Ha1; [|done].
  destruct (add_seconds d2 (utcoffset inf2)) as [t2|] eqn:Ha2; [|done].
  intros [= <-] [= <-].
  destruct (add_seconds_ok _ _ _ Ha1) as [Hvt1 Hs1].
  destruct (add_seconds_ok _ _ _ Ha2) as [Hvt2 Hs2].
  assert (str_datetime t1 = str_datetime t2 ↔
          to_seconds d1 + utcoffset inf1 = to_seconds d2 + utcoffset inf2)
    as Hiff.
  { rewrite <- Hs1, <- Hs2. split.
    - intros Heq. f_equal.
      rewrite <- (mysql_datetime_str_datetime t1 Hvt1).
      rewrite <- (mysql_datetime_str_datetime t2 Hvt2). by rewrite Heq.
    - intros Heq. f_equal. by apply to_seconds_inj. }
  split; [done|]. intros Hoff Hne Heq. apply Hne.
  apply to_seconds_inj; [done..|]. apply Hiff in Heq. lia.
Qed.

Lemma to_timezone_same_text_witness :
  valid_datetime Cases.before_change = true ∧
  valid_datetime Cases.after_change = true ∧
  zones Sample.online "Europe/London" = Some Europe_London ∧
  info_at Europe_London Cases.before_change = Ok BST ∧
  info_at Europe_London Cases.after_change = Ok GMT ∧
  to_timezone Sample.online "2021-10-31T00:00:00Z" "Europe/London"
  = Ok "2021-10-31 01:00:00" ∧
  to_timezone Sample.online "2021-10-31T01:00:00Z" "Europe/London"
  = Ok "2021-10-31 01:00:00" ∧
  to_seconds Cases.before_change + 3600 = to_seconds Cases.after_change + 0.
Proof.
  assert (to_timezone Sample.online (strftime_z Cases.before_change)
            "Europe/London" = Ok "2021-10-31 01:00:00") as H1
    by (vm_compute; reflexivity).
  assert (to_timezone Sample.online (strftime_z Cases.after_change)
            "Europe/London" = Ok "2021-10-31 01:00:00") as H2
    by (vm_compute; reflexivity).
  destruct (to_timezone_same_text Sample.online "Europe/London" Europe_London
              Cases.before_change Cases.after_change BST GMT
              "2021-10-31 01:00:00" "2021-10-31 01:00:00"
              eq_refl eq_refl eq_refl eq_refl eq_refl H1 H2)
    as [Hiff _].
  split_and!; [vm_compute; reflexivity..|]. by apply Hiff.
Defined.



End time_more.

(** ** More on the merger *)

Section merger_more.
Import Py Calendar Merger Runs.


Lemma last_cons_default {A} (l : list A) (x d : A) :
  List.last (x :: l) d = List.last l x.
Proof.
  revert x d. induction l as [|y l IH]; intros x d; [done|].
  transitivity (List.last (y :: l) d); [done|]. by rewrite !IH.
Qed.

Lemma contiguous_snoc p ps q :
  contiguous (p :: ps) → (List.last ps p).2 = q.1 →
  contiguous (p :: ps ++ [q]).
Proof.
  revert p. induction ps as [|r ps IH]; intros p Hc Hq; [by split|].
  destruct Hc as [Hpr Hc]. split; [done|]. apply IH; [done|].
  by rewrite <- (last_cons_default ps r p).
Qed.

Lemma last_snoc_default {A} (l : list A) (x d : A) : List.last (l ++ [x]) d = x.
Proof. apply List.last_last. Qed.

Lemma scan_runs rest : ∀ (g : run),
  contiguous (run_periods g) →
  ∃ runs,
    run_periods g ++ rest = List.concat (map run_periods runs) ∧
    Forall (λ g, contiguous (run_periods g)) runs ∧
    scan (span g) rest = map span runs.
Proof.
  induction rest as [|q rest IH]; intros [p ps] Hc.
  - exists [(p, ps)]. simpl. rewrite !app_nil_r. by repeat constructor.
  - cbn [scan]. case_decide as Hq.
    + destruct (IH (p, ps ++ [q])) as (runs & Hcat & Hall & Hscan).
      { by apply contiguous_snoc. }
      exists runs. split_and!; [|done|].
      * rewrite <- Hcat. unfold run_periods. simpl.
        by rewrite <- (assoc_L (++)).
      * rewrite <- Hscan. unfold span. simpl. by rewrite last_snoc_default.
    + destruct (IH (q, [])) as (runs & Hcat & Hall & Hscan); [done|].
      exists ((p, ps) :: runs). split_and!.
      * cbn [map List.concat]. rewrite <- Hcat. by unfold run_periods.
      * by constructor.
      * simpl. f_equal. rewrite <- Hscan. by destruct q.
Qed.

Lemma scan_fixed rest : ∀ cur,
  non_contiguous (cur :: rest) → scan cur rest = cur :: rest.
Proof.
  induction rest as [|q rest IH]; intros cur Hn; [done|].
  destruct Hn as [Hq Hn]. simpl. rewrite decide_False by done.
  by rewrite IH.
Qed.

Lemma scan_duration rest : ∀ cur,
  total_duration (scan cur rest) = duration cur + total_duration rest.
Proof.
  induction rest as [|q rest IH]; intros cur; [done|].
  cbn [scan]. case_decide as Hq.
  - rewrite IH. unfold total_duration. cbn [foldr]. unfold duration.
    cbn [fst snd]. rewrite Hq. lia.
  - unfold total_duration in *. cbn [foldr]. by rewrite IH.
Qed.

Lemma scan_length rest : ∀ cur,
  (List.length (scan cur rest) ≤ S (List.length rest))%nat.
Proof.
  induction rest as [|q rest IH]; intros cur; [done|].
  cbn [scan]. case_decide; simpl.
  - specialize (IH (cur.1, q.2)). lia.
  - specialize (IH q). lia.
Qed.

Lemma scan_last rest : ∀ cur,
  snd <$> last (scan cur rest) = Some (List.last rest cur).2.
Proof.
  induction rest as [|q rest IH]; intros cur; [done|].
  rewrite last_cons_default. cbn [scan]. case_decide.
  - rewrite IH. destruct rest as [|r rest]; [done|].
    by rewrite !last_cons_default.
  - rewrite last_cons. specialize (IH q).
    destruct (last (scan q rest)) as [x|]; [|done]. done.
Qed.

Lemma dt_lt_trans a b c : dt_lt a b → dt_lt b c → dt_lt a c.
Proof.
  destruct a, b, c. unfold dt_lt, dt_compare. simpl. intros H1 H2.
  repeat match goal with
  | |- context [Z.compare ?x ?y] =>
      destruct (Z.compare_spec x y); subst; simpl in *; try done; try lia
  | H : context [Z.compare ?x ?y] |- _ =>
      destruct (Z.compare_spec x y); subst; simpl in *; try done; try lia
  end.
Qed.

Lemma scan_ascending rest : ∀ cur,
  ascending_disjoint (cur :: rest) → ascending_disjoint (scan cur rest).
Proof.
  induction rest as [|q rest IH]; intros cur Ha; [done|].
  destruct Ha as (Hcur & [Hlt Hle] & Hrest). cbn [scan]. case_decide as Hq.
  - apply IH. destruct Hrest as (Hqq & Hnext & Hrest'). simpl.
    split_and!; [|..|done].
    + rewrite <- Hq in Hcur. by eapply dt_lt_trans.
    + destruct rest as [|r rest]; [done|]. destruct Hnext as [Hqr Hqr'].
      split; [|done]. by eapply dt_lt_trans.
  - specialize (IH q Hrest). pose proof (scan_head rest q) as Hh.
    destruct (scan q rest) as [|x out]; [done|].
    simpl in Hh. injection Hh as Hx.
    change (dt_lt cur.1 cur.2 ∧ (dt_lt cur.1 x.1 ∧ dt_le cur.2 x.1)
            ∧ ascending_disjoint (x :: out)).
    rewrite Hx. by split_and!.
Qed.


Lemma last_some_default {A} (l : list A) (d : A) :
  last (d :: l) = Some (List.last l d).
Proof.
  revert d. induction l as [|y l IH]; intros d; [done|].
  rewrite last_cons_default. apply (IH y).
Qed.

(** The two ends of a merged interval come from the input: its start is
    the start of a period and its end the end of a period. *)
Lemma scan_from_to (P Q : datetime → Prop) rest : ∀ cur,
  P cur.1 → Q cur.2 → Forall (λ p : period, P p.1 ∧ Q p.2) rest →
  Forall (λ p : period, P p.1 ∧ Q p.2) (scan cur rest).
Proof.
  induction rest as [|q rest IH]; intros cur H1 H2 Hall.
  - by repeat constructor.
  - apply Forall_cons in Hall as [[Hq1 Hq2] Hall]. cbn [scan].
    case_decide; [by apply IH|]. constructor; [done|by apply IH].
Qed.

(** X5: the merged intervals are the spans of consecutive runs of the
    input: the input is cut into runs in which every period ends where the
    next one starts, and each run gives the interval from the start of its
    first period to the end of its last. *)
Theorem merger_spans_of_runs hours :
  ∃ runs,
    hours = List.concat (map run_periods runs) ∧
    Forall (λ g, contiguous (run_periods g)) runs ∧
    merged_intervals hours = Ok (map span runs) ∧
    merge_hours hours = Ok (map (λ g, to_minutes (span g)) runs).
Proof.
  destruct hours as [|[a b] rest].
  - exists []. by split_and!.
  - destruct (scan_runs rest ((a, b), [])) as (runs & Hcat & Hall & Hscan);
      [done|].
    change (span ((a, b), [])) with (a, b) in Hscan.
    exists runs. rewrite merge_hours_spec, merged_intervals_spec.
    cbn [merge_spec]. rewrite Hscan, <- Hcat. split_and!; [done|done|done|].
    by rewrite <- list_fmap_compose.
Qed.

(** X6: merging what the merger returned changes nothing. *)
Theorem merger_idempotent hours :
  ∃ merged,
    merged_intervals hours = Ok merged ∧
    merged_intervals merged = Ok merged.
Proof.
  exists (merge_spec hours). rewrite !merged_intervals_spec. split; [done|].
  f_equal. destruct hours as [|p rest]; [done|]. cbn [merge_spec].
  pose proof (scan_maximal rest p) as Hmax.
  destruct (scan p rest) as [|m out]; [done|].
  cbn [merge_spec]. by apply scan_fixed.
Qed.

(** X7: the merger keeps the order: periods that ascend by their start,
    begin before they end and do not reach into the next one are merged
    into intervals that do so too. *)
Theorem merger_keeps_order hours :
  ascending_disjoint hours →
  ∃ merged,
    merged_intervals hours = Ok merged ∧ ascending_disjoint merged.
Proof.
  intros Ha. exists (merge_spec hours). rewrite merged_intervals_spec.
  split; [done|]. destruct hours as [|p rest]; [done|]. by apply scan_ascending.
Qed.

Lemma merger_keeps_order_witness :
  ascending_disjoint hours_mixed ∧
  ∃ merged,
    merged_intervals hours_mixed = Ok merged ∧ ascending_disjoint merged.
Proof.
  assert (ascending_disjoint hours_mixed) as Ha by (vm_compute; done).
  split; [done|]. exact (merger_keeps_order hours_mixed Ha).
Defined.

(** X8: merging neither adds nor loses time: the seconds covered by the
    merged intervals are the seconds covered by the periods. *)
Theorem merger_keeps_duration hours :
  ∃ merged,
    merged_intervals hours = Ok merged ∧
    total_duration merged = total_duration hours.
Proof.
  exists (merge_spec hours). rewrite merged_intervals_spec. split; [done|].
  destruct hours as [|p rest]; [done|]. apply scan_duration.
Qed.

(** X9: the output is never longer than the input and empty only for the
    empty input; it starts where the first period starts and ends where
    the last period ends. *)
Theorem merger_keeps_ends hours :
  ∃ merged,
    merged_intervals hours = Ok merged ∧
    (List.length merged ≤ List.length hours)%nat ∧
    (merged = [] ↔ hours = []) ∧
    fst <$> head merged = fst <$> head hours ∧
    snd <$> last merged = snd <$> last hours.
Proof.
  exists (merge_spec hours). rewrite merged_intervals_spec.
  destruct hours as [|p rest].
  - split_and!; [done|done|done|done|done].
  - cbn [merge_spec].
    split_and!; [done|apply scan_length| |apply scan_head|].
    + pose proof (scan_head rest p) as Hh. split; [|done].
      intros Hnil. by rewrite Hnil in Hh.
    + by rewrite scan_last, last_some_default.
Qed.

End merger_more.

(** ** More on the price store *)

Section store_more.
Import Py Calendar Merger Octopus Rows.


Lemma insert_ignore_lookup_full k to_ q (t : table) k' :
  insert_ignore k to_ q t !! k'
  = match t !! k' with
    | Some v => Some v
    | None => if decide (k = k') then Some (to_, q) else None
    end.
Proof.
  unfold insert_ignore. destruct (t !! k) as [u|] eqn:Hk.
  - destruct (t !! k') as [v|] eqn:Hk'; [done|].
    case_decide; [congruence|done].
  - destruct (decide (k = k')) as [<-|Hne].
    + by rewrite lookup_insert_eq, Hk.
    + rewrite lookup_insert_ne by done. by destruct (t !! k').
Qed.

Lemma write_rows_lookup_full rws : ∀ (t : table) k,
  foldl write_row t rws !! k
  = match t !! k with
    | Some v => Some v
    | None => first_row k rws
    end.
Proof.
  induction rws as [|r rws IH]; intros t k.
  - cbn [foldl]. destruct (t !! k); reflexivity.
  - cbn [foldl]. rewrite IH. unfold write_row at 1.
    rewrite insert_ignore_lookup_full.
    destruct (t !! k) as [v|]; [done|].
    unfold first_row. rewrite filter_cons.
    destruct (decide (r.1.1 = k)) as [Heq|Hne]; [done|done].
Qed.

Lemma first_row_elem k v rws :
  NoDup (row_keys rws) →
  first_row k rws = Some v ↔ (k, v.1, v.2) ∈ rws.
Proof.
  unfold first_row, row_keys. induction rws as [|r rws IH]; intros Hnd.
  - split; [done|]. by intros ?%elem_of_nil.
  - rewrite fmap_cons in Hnd. apply NoDup_cons in Hnd as [Hr Hnd].
    rewrite filter_cons, elem_of_cons.
    destruct (decide (r.1.1 = k)) as [Hk|Hk].
    + split.
      * intros [= <-]. left. destruct r as [[a b] c]. simpl in *. by subst.
      * intros [<-|Hin]; [by destruct v|]. exfalso. apply Hr.
        apply list_elem_of_fmap. by exists (k, v.1, v.2).
    + rewrite IH by done. split; [by right|].
      intros [<-|Hin]; [done|done].
Qed.

Lemma first_row_perm k rws1 rws2 :
  rws1 ≡ₚ rws2 → NoDup (row_keys rws1) →
  first_row k rws1 = first_row k rws2.
Proof.
  intros Hp Hnd.
  assert (NoDup (row_keys rws2)) as Hnd2.
  { unfold row_keys in *. by rewrite <- Hp. }
  apply option_eq. intros v.
  rewrite !first_row_elem by done. by rewrite Hp.
Qed.

Lemma write_rows_perm (t : table) rws1 rws2 :
  rws1 ≡ₚ rws2 → NoDup (row_keys rws1) →
  foldl write_row t rws1 = foldl write_row t rws2.
Proof.
  intros Hp Hnd. apply map_eq. intros k.
  rewrite !write_rows_lookup_full. destruct (t !! k); [done|].
  by apply first_row_perm.
Qed.



Lemma rows_of_perm w results1 results2 rws1 :
  results1 ≡ₚ results2 → rows_of w results1 rws1 →
  ∃ rws2, rws1 ≡ₚ rws2 ∧ rows_of w results2 rws2.
Proof.
  unfold rows_of. intros Hp. revert rws1.
  induction Hp as [|p l1 l2 Hp IH|p q l|l1 l2 l3 Hp1 IH1 Hp2 IH2]; intros rws1 Hall.
  - apply Forall2_nil_inv_l in Hall as ->. by exists [].
  - apply Forall2_cons_inv_l in Hall as (r & rws & Hr & Hall & ->).
    destruct (IH _ Hall) as (rws2 & Hperm & Hall2).
    exists (r :: rws2). split; [by constructor|by constructor].
  - apply Forall2_cons_inv_l in Hall as (r1 & rws & Hr1 & Hall & ->).
    apply Forall2_cons_inv_l in Hall as (r2 & rws' & Hr2 & Hall & ->).
    exists (r2 :: r1 :: rws'). split; [apply perm_swap|].
    by repeat constructor.
  - destruct (IH1 _ Hall) as (rws2 & Hperm1 & Hall2).
    destruct (IH2 _ Hall2) as (rws3 & Hperm2 & Hall3).
    exists rws3. split; [by etrans|done].
Qed.

(** X10: the table after an ingestion, key by key: a key that was bound
    keeps its row, a key that was free gets the row of the first record of
    the batch with that period start, later records with it are dropped,
    and no other key is bound; the rows are committed. *)
Theorem insert_price_first_row_wins w prices results rws con :
  getitem prices "results" ≫= iterate = Ok results →
  rows_of w results rws →
  ∃ con',
    insert_price w prices con = (con', Ok ()) ∧
    session con' = committed con' ∧
    ∀ k, committed con' !! k
         = match session con !! k with
           | Some v => Some v
           | None => first_row k rws
           end.
Proof.
  intros Hres Hall. eexists.
  split; [exact (insert_price_rows w prices results rws con Hres Hall)|].
  split; [done|]. intros k. apply write_rows_lookup_full.
Qed.

Lemma insert_price_first_row_wins_witness :
  getitem Sample.answer "results" ≫= iterate = Ok Sample.records ∧
  rows_of Sample.online Sample.records Cases.sample_rows ∧
  ∃ con',
    insert_price Sample.online Sample.answer Sample.fresh = (con', Ok ()) ∧
    session con' = committed con' ∧
    ∀ k, committed con' !! k
         = match session Sample.fresh !! k with
           | Some v => Some v
           | None => first_row k Cases.sample_rows
           end.
Proof.
  assert (rows_of Sample.online Sample.records Cases.sample_rows) as Hrows
    by (repeat constructor; vm_compute; reflexivity).
  split_and!; [reflexivity|exact Hrows|].
  exact (insert_price_first_row_wins Sample.online Sample.answer
           Sample.records Cases.sample_rows Sample.fresh eq_refl Hrows).
Defined.

(** X11: two batches with the same records in another order give the same
    store when no two records share a period start. *)
Theorem insert_price_order_independent w prices1 prices2 results1 results2
    rws1 con :
  getitem prices1 "results" ≫= iterate = Ok results1 →
  getitem prices2 "results" ≫= iterate = Ok results2 →
  results1 ≡ₚ results2 →
  rows_of w results1 rws1 →
  NoDup (row_keys rws1) →
  insert_price w prices1 con = insert_price w prices2 con.
Proof.
  intros Hres1 Hres2 Hp Hall1 Hnd.
  destruct (rows_of_perm w _ _ _ Hp Hall1) as (rws2 & Hperm & Hall2).
  rewrite (insert_price_rows w prices1 results1 rws1 con Hres1 Hall1).
  rewrite (insert_price_rows w prices2 results2 rws2 con Hres2 Hall2).
  by rewrite (write_rows_perm (session con) rws1 rws2 Hperm Hnd).
Qed.

Lemma insert_price_order_independent_witness :
  getitem Cases.newest_first "results" ≫= iterate = Ok Cases.distinct_records ∧
  getitem Cases.oldest_first "results" ≫= iterate
  = Ok (rev Cases.distinct_records) ∧
  Cases.distinct_records ≡ₚ rev Cases.distinct_records ∧
  rows_of Sample.online Cases.distinct_records Cases.distinct_rows ∧
  NoDup (row_keys Cases.distinct_rows) ∧
  insert_price Sample.online Cases.newest_first Sample.fresh
  = insert_price Sample.online Cases.oldest_first Sample.fresh.
Proof.
  assert (rows_of Sample.online Cases.distinct_records Cases.distinct_rows)
    as Hrows by (repeat constructor; vm_compute; reflexivity).
  assert (NoDup (row_keys Cases.distinct_rows)) as Hnd
    by (apply (@bool_decide_unpack _ (NoDup_dec _)); vm_compute; exact I).
  assert (Cases.distinct_records ≡ₚ rev Cases.distinct_records) as Hperm
    by apply Permutation_rev.
  split_and!; [reflexivity|reflexivity|exact Hperm|exact Hrows|exact Hnd|].
  exact (insert_price_order_independent Sample.online Cases.newest_first
           Cases.oldest_first Cases.distinct_records
           (rev Cases.distinct_records) Cases.distinct_rows Sample.fresh
           eq_refl eq_refl Hperm Hrows Hnd).
Defined.



(** X13: a lower threshold selects fewer rows: within one window, every
    period listed below a threshold is listed below every higher one. *)
Theorem fetch_below_monotone w tick con lo hi (price1 price2 : Qc) :
  query_window w tick = Ok (lo, hi) →
  (price1 ≤ price2)%Qc →
  ∃ hours1 hours2,
    fetch_below w tick price1 con = (con, Ok hours1) ∧
    fetch_below w tick price2 con = (con, Ok hours2) ∧
    hours1 ⊆ hours2.
Proof.
  intros Hw Hle. exists (select_below lo hi price1 (session con)),
    (select_below lo hi price2 (session con)).
  rewrite !(fetch_below_window _ _ _ _ lo hi Hw). split_and!; [done..|].
  intros r (p & Hlook & Hlo & Hhi & Hp)%select_below_elem.
  apply select_below_elem. exists p. split; [done|].
  split_and!; [done..|]. simpl in *. by eapply Qclt_le_trans.
Qed.

Lemma fetch_below_monotone_witness :
  query_window Sample.online 0 = Ok (Sample.window_start, Sample.window_end) ∧
  (Qc_of_Z 10 ≤ Qc_of_Z 20)%Qc ∧
  ∃ hours1 hours2,
    fetch_below Sample.online 0 (Qc_of_Z 10) Sample.stored
    = (Sample.stored, Ok hours1) ∧
    fetch_below Sample.online 0 (Qc_of_Z 20) Sample.stored
    = (Sample.stored, Ok hours2) ∧
    hours1 ⊆ hours2.
Proof.
  assert (query_window Sample.online 0
          = Ok (Sample.window_start, Sample.window_end)) as Hw
    by (vm_compute; reflexivity).
  assert (Qc_of_Z 10 ≤ Qc_of_Z 20)%Qc as Hle by (vm_compute; discriminate).
  split_and!; [exact Hw|exact Hle|].
  exact (fetch_below_monotone Sample.online 0 Sample.stored
           Sample.window_start Sample.window_end _ _ Hw Hle).
Defined.

(** X14: every interval that [get_hours_below_price] returns starts at the
    start of a stored period that qualifies and ends at the end of one,
    and the call leaves the connection as it was. *)
Theorem reported_intervals_from_rows w tick price con lo hi :
  query_window w tick = Ok (lo, hi) →
  ∃ merged,
    get_hours_below_price w tick price con
    = (con, Ok (map to_minutes merged)) ∧
    Forall (λ m : period,
      (∃ to_ p, session con !! m.1 = Some (to_, p) ∧
                dt_le lo m.1 ∧ dt_le m.1 hi ∧ (p < price)%Qc) ∧
      (∃ from_ p, session con !! from_ = Some (m.2, p) ∧
                  dt_le lo from_ ∧ dt_le from_ hi ∧ (p < price)%Qc)) merged.
Proof.
  intros Hw. exists (merge_spec (select_below lo hi price (session con))).
  rewrite (get_hours_below_price_window _ _ _ _ lo hi Hw), merge_hours_spec.
  split; [done|].
  assert (Forall (λ m : period,
      (∃ to_ p, session con !! m.1 = Some (to_, p) ∧
                dt_le lo m.1 ∧ dt_le m.1 hi ∧ (p < price)%Qc) ∧
      (∃ from_ p, session con !! from_ = Some (m.2, p) ∧
                  dt_le lo from_ ∧ dt_le from_ hi ∧ (p < price)%Qc))
      (select_below lo hi price (session con))) as Hrows.
  { apply Forall_forall. intros r (p & Hlook & Hq)%select_below_elem.
    split; [by exists r.2, p|by exists r.1, p]. }
  destruct (select_below lo hi price (session con)) as [|r rest]; [done|].
  apply Forall_cons in Hrows as [[H1 H2] Hrest]. cbn [merge_spec].
  by apply (scan_from_to
    (λ d, ∃ to_ p, session con !! d = Some (to_, p) ∧
                   dt_le lo d ∧ dt_le d hi ∧ (p < price)%Qc)
    (λ d, ∃ from_ p, session con !! from_ = Some (d, p) ∧
                     dt_le lo from_ ∧ dt_le from_ hi ∧ (p < price)%Qc)).
Qed.

Lemma reported_intervals_from_rows_witness :
  query_window Sample.online 0 = Ok (Sample.window_start, Sample.window_end) ∧
  get_hours_below_price Sample.online 0 (Qc_of_Z 20) Sample.stored
  = (Sample.stored,
     Ok [("2021-02-21 08:00", "2021-02-21 09:00");
         ("2021-02-21 10:00", "2021-02-21 10:30")]) ∧
  ∃ merged,
    get_hours_below_price Sample.online 0 (Qc_of_Z 20) Sample.stored
    = (Sample.stored, Ok (map to_minutes merged)) ∧
    Forall (λ m : period,
      (∃ to_ p, session Sample.stored !! m.1 = Some (to_, p) ∧
                dt_le Sample.window_start m.1 ∧ dt_le m.1 Sample.window_end ∧
                (p < Qc_of_Z 20)%Qc) ∧
      (∃ from_ p, session Sample.stored !! from_ = Some (m.2, p) ∧
                  dt_le Sample.window_start from_ ∧
                  dt_le from_ Sample.window_end ∧ (p < Qc_of_Z 20)%Qc)) merged.
Proof.
  assert (query_window Sample.online 0
          = Ok (Sample.window_start, Sample.window_end)) as Hw
    by (vm_compute; reflexivity).
  split_and!; [exact Hw|vm_compute; reflexivity|].
  exact (reported_intervals_from_rows Sample.online 0 (Qc_of_Z 20)
           Sample.stored Sample.window_start Sample.window_end Hw).
Defined.

End store_more.

(** ** More on the report and on main *)

Section report_more.
Import Py Calendar Merger Octopus.

Lemma app_empty_string (s : string) : s +:+ "" = s.
Proof.
  induction s as [|c s IH]; [done|].
  change (String c s +:+ "") with (String c (s +:+ "")). by rewrite IH.
Qed.














End report_more.

(** ** The outcomes of a query and of a run *)

Section run_more.
Import Py Calendar Merger Octopus.

Lemma merge_spec_nil hours : merge_spec hours = [] → hours = [].
Proof.
  destruct hours as [|p rest]; [done|]. cbn [merge_spec]. intros Hs.
  pose proof (scan_head rest p) as Hh. by rewrite Hs in Hh.
Qed.


(** X17: a query lists nothing exactly when no stored period that starts in
    the window has a price below the threshold. *)
Theorem get_hours_below_price_empty w tick price con lo hi :
  query_window w tick = Ok (lo, hi) →
  get_hours_below_price w tick price con = (con, Ok []) ↔
  ∀ k v, session con !! k = Some v → ¬ qualifies lo hi price (k, v).
Proof.
  intros Hw. rewrite (get_hours_below_price_window _ _ _ _ lo hi Hw).
  rewrite merge_hours_spec. split.
  - intros [= Hnil] k [to_ p] Hlook Hq.
    apply fmap_nil_inv in Hnil. apply merge_spec_nil in Hnil.
    assert ((k, to_) ∈ select_below lo hi price (session con)) as Hin.
    { apply select_below_elem. by exists p. }
    rewrite Hnil in Hin. by apply elem_of_nil in Hin.
  - intros Hnone. by rewrite select_below_none.
Qed.

Lemma get_hours_below_price_empty_witness :
  query_window Sample.online 4 = Ok (Sample.window_start, Sample.window_end) ∧
  get_hours_below_price Sample.online 4 (Qc_of_Z 0) Sample.stored
  = (Sample.stored, Ok []) ∧
  ∀ k v, session Sample.stored !! k = Some v →
         ¬ qualifies Sample.window_start Sample.window_end (Qc_of_Z 0) (k, v).
Proof.
  assert (query_window Sample.online 4
          = Ok (Sample.window_start, Sample.window_end)) as Hw
    by (vm_compute; reflexivity).
  assert (get_hours_below_price Sample.online 4 (Qc_of_Z 0) Sample.stored
          = (Sample.stored, Ok [])) as Hrun by (vm_compute; reflexivity).
  split_and!; [exact Hw|exact Hrun|].
  exact (proj1 (get_hours_below_price_empty Sample.online 4 (Qc_of_Z 0)
                  Sample.stored _ _ Hw) Hrun).
Defined.





End run_more.

(** ** notification *)

Section notification_facts.
Import Notification.

Lemma split_on_cons sep s : ∃ piece pieces, split_on sep s = piece :: pieces.
Proof.
  destruct s as [|c s]; [by eexists _, _|]. cbn [split_on].
  case_decide; [by eexists _, _|]. destruct (split_on sep s); by eexists _, _.
Qed.

Lemma concat_cons_cons sep (a b : string) l :
  String.concat sep (a :: b :: l) = a +:+ sep +:+ String.concat sep (b :: l).
Proof. reflexivity. Qed.

Lemma join_split sep s :
  String.concat (String sep EmptyString) (split_on sep s) = s.
Proof.
  induction s as [|c s IH]; [done|]. cbn [split_on]. case_decide as Hc.
  - destruct (split_on_cons sep s) as (p & ps & Hs). rewrite Hs in *.
    rewrite concat_cons_cons, IH. by subst.
  - destruct (split_on_cons sep s) as (p & ps & Hs). rewrite Hs in *.
    destruct ps as [|q ps].
    + simpl in *. by subst.
    + rewrite concat_cons_cons in *.
      change (String c p +:+ ?x) with (String c (p +:+ x)). by rewrite IH.
Qed.

Lemma join_split_replace sep new s :
  String.concat (String new EmptyString) (split_on sep s)
  = replace_char sep new s.
Proof.
  induction s as [|c s IH]; [done|]. cbn [split_on replace_char].
  case_decide as Hc.
  - destruct (split_on_cons sep s) as (p & ps & Hs). rewrite Hs in *.
    by rewrite concat_cons_cons, IH.
  - destruct (split_on_cons sep s) as (p & ps & Hs). rewrite Hs in *.
    destruct ps as [|q ps].
    + simpl in *. by rewrite IH.
    + rewrite concat_cons_cons in *.
      change (String c p +:+ ?x) with (String c (p +:+ x)). by rewrite IH.
Qed.

Lemma split_on_length sep s :
  List.length (split_on sep s) = S (occurrences sep s).
Proof.
  induction s as [|c s IH]; [done|]. cbn [split_on occurrences].
  case_decide; simpl; [by rewrite IH|].
  destruct (split_on_cons sep s) as (p & ps & Hs). rewrite Hs in *.
  simpl in *. lia.
Qed.

Lemma split_on_lacks sep s : Forall (Octopus.lacks sep) (split_on sep s).
Proof.
  induction s as [|c s IH]; [by repeat constructor|]. cbn [split_on].
  case_decide; [by constructor|].
  destruct (split_on_cons sep s) as (p & ps & Hs). rewrite Hs in *.
  apply Forall_cons in IH as [Hp Hps]. constructor; [|done]. by split.
Qed.

Lemma replace_char_lacks old new s :
  new ≠ old → Octopus.lacks old (replace_char old new s).
Proof.
  intros Hne. induction s as [|c s IH]; [done|]. cbn [replace_char].
  split; [|done]. by case_decide.
Qed.

Lemma replace_char_length old new s :
  String.length (replace_char old new s) = String.length s.
Proof. induction s as [|c s IH]; [done|]. simpl. by rewrite IH. Qed.

Lemma occurrences_replace old new s :
  new ≠ old →
  occurrences new (replace_char old new s)
  = (occurrences new s + occurrences old s)%nat.
Proof.
  intros Hne. induction s as [|c s IH]; [done|].
  cbn [replace_char occurrences]. rewrite IH.
  destruct (decide (c = old)) as [->|Hc].
  - rewrite decide_True by done. rewrite (decide_False (P := old = new)) by done.
    lia.
  - destruct (decide (c = new)); lia.
Qed.

Section chat_facts.
Variable lower : string → string.

Lemma member_loop_false recipient ms :
  member_loop lower recipient ms = Returned false ↔
  Forall (is_other lower recipient) ms.
Proof.
  induction ms as [|m ms IH]; [by split; [constructor|]|].
  cbn [member_loop]. destruct (email m) as [e|] eqn:He.
  - case_decide as Hm.
    + split; [done|]. intros [(e' & He' & Hne) _]%Forall_cons.
      congruence.
    + rewrite IH. split.
      * intros Hall. constructor; [by exists e|done].
      * by intros [_ ?]%Forall_cons.
  - split; [done|]. intros [(e' & He' & _) _]%Forall_cons. congruence.
Qed.

Lemma member_loop_true recipient ms :
  member_loop lower recipient ms = Returned true ↔
  ∃ ms1 m ms2, ms = ms1 ++ m :: ms2 ∧
    Forall (is_other lower recipient) ms1 ∧ is_recipient lower recipient m.
Proof.
  induction ms as [|m ms IH].
  - split; [done|]. intros (ms1 & m & ms2 & Heq & _). by destruct ms1.
  - cbn [member_loop]. destruct (email m) as [e|] eqn:He.
    + case_decide as Hm.
      * split; [|done]. intros _. exists [], m, ms.
        split_and!; [done|constructor|by exists e].
      * rewrite IH. split.
        -- intros (ms1 & m' & ms2 & -> & Hall & Hrec).
           exists (m :: ms1), m', ms2. split_and!; [done| |done].
           constructor; [by exists e|done].
        -- intros (ms1 & m' & ms2 & Heq & Hall & Hrec).
           destruct ms1 as [|m1 ms1]; simplify_eq/=.
           ++ destruct Hrec as (e' & He' & Heq'). congruence.
           ++ apply Forall_cons in Hall as [_ Hall]. by exists ms1, m', ms2.
    + split; [done|]. intros (ms1 & m' & ms2 & Heq & Hall & Hrec).
      destruct ms1 as [|m1 ms1]; simplify_eq/=.
      * destruct Hrec as (e' & He' & _). congruence.
      * apply Forall_cons in Hall as [(e' & He' & _) _]. congruence.
Qed.

Lemma get_chat_none recipient chats :
  get_chat lower chats recipient = Returned None ↔
  Forall (λ c, Forall (is_other lower recipient) (members c)) chats.
Proof.
  induction chats as [|c chats IH]; [by split; [constructor|]|].
  cbn [get_chat].
  destruct (member_loop lower recipient (members c)) as [[|]|] eqn:Hloop.
  - split; [done|]. intros [Hc _]%Forall_cons.
    apply member_loop_false in Hc. congruence.
  - rewrite IH. apply member_loop_false in Hloop. split.
    + intros Hall. by constructor.
    + by intros [_ ?]%Forall_cons.
  - split; [done|]. intros [Hc _]%Forall_cons.
    apply member_loop_false in Hc. congruence.
Qed.

Lemma get_chat_first recipient before c after :
  Forall (λ c, Forall (is_other lower recipient) (members c)) before →
  member_loop lower recipient (members c) = Returned true →
  get_chat lower (before ++ c :: after) recipient = Returned (Some (chat_id c)).
Proof.
  intros Hbefore Hc. induction Hbefore as [|b before Hb Hbefore IH].
  - cbn [app get_chat]. by rewrite Hc.
  - cbn [app get_chat]. apply member_loop_false in Hb. by rewrite Hb.
Qed.

Lemma get_chat_some recipient chats id :
  get_chat lower chats recipient = Returned (Some id) →
  ∃ before c after, chats = before ++ c :: after ∧ chat_id c = id ∧
    Forall (λ c, Forall (is_other lower recipient) (members c)) before ∧
    member_loop lower recipient (members c) = Returned true.
Proof.
  induction chats as [|c chats IH]; [done|]. cbn [get_chat].
  destruct (member_loop lower recipient (members c)) as [[|]|] eqn:Hloop;
    [| |done].
  - intros [= <-]. exists [], c, chats. split_and!; [done|done|constructor|done].
  - intros (before & c' & after & -> & Hid & Hall & Hc')%IH.
    exists (c :: before), c', after. split_and!; [done|done| |done].
    constructor; [|done]. by apply member_loop_false.
Qed.

End chat_facts.

End notification_facts.

Section notification_claims.
Import Octopus Notification.

(** X20: the two ways of sending address the same recipients: the [To]
    header that [gmail_send] sets is the list of addresses that
    [Graph.send_email] makes of the same text, joined by commas; it holds
    no blank, is as long as the text given, and has a comma for every comma
    and every blank of it. *)
Theorem recipients_agree sender recipient subject body text :
  To (gmail_message sender recipient subject body)
  = String.concat "," (to_recipients (send_email_request recipient subject text)) ∧
  lacks " " (To (gmail_message sender recipient subject body)) ∧
  String.length (To (gmail_message sender recipient subject body))
  = String.length recipient ∧
  occurrences "," (To (gmail_message sender recipient subject body))
  = (occurrences "," recipient + occurrences " " recipient)%nat.
Proof.
  cbn [To gmail_message to_recipients send_email_request]. split_and!.
  - symmetry. apply join_split_replace.
  - by apply replace_char_lacks.
  - apply replace_char_length.
  - by apply occurrences_replace.
Qed.

(** X21: [Graph.send_email] makes one recipient of each piece between two
    blanks, empty pieces included: one more than there are blanks, none
    with a blank in it, and joined by blanks they give the text back. *)
Theorem send_email_recipients recipient subject text :
  List.length (to_recipients (send_email_request recipient subject text))
  = S (occurrences " " recipient) ∧
  Forall (lacks " ") (to_recipients (send_email_request recipient subject text)) ∧
  String.concat " " (to_recipients (send_email_request recipient subject text))
  = recipient.
Proof.
  cbn [to_recipients send_email_request]. split_and!.
  - apply split_on_length.
  - apply split_on_lacks.
  - apply join_split.
Qed.

Section chats.
Variable lower : string → string.

(** X22: [get_chat] returns the id of the first chat, in the order of the
    API, in which a member has the recipient's email, letter case apart:
    every member of the chats before it, and every member before that one
    in the chat, has another email. *)
Theorem get_chat_first_match chats recipient id :
  get_chat lower chats recipient = Returned (Some id) ↔
  ∃ before c after ms1 m ms2,
    chats = before ++ c :: after ∧ chat_id c = id ∧
    Forall (λ c, Forall (is_other lower recipient) (members c)) before ∧
    members c = ms1 ++ m :: ms2 ∧
    Forall (is_other lower recipient) ms1 ∧
    is_recipient lower recipient m.
Proof.
  split.
  - intros (before & c & after & -> & Hid & Hall & Hc)%get_chat_some.
    apply member_loop_true in Hc as (ms1 & m & ms2 & Hms & Hall1 & Hm).
    by exists before, c, after, ms1, m, ms2.
  - intros (before & c & after & ms1 & m & ms2 & -> & <- & Hall & Hms & H1 & Hm).
    apply get_chat_first; [done|]. apply member_loop_true.
    by exists ms1, m, ms2.
Qed.

(** X23: [get_chat] returns [None] exactly when every member of every chat
    has an email and none of them is the recipient's; a member without
    email that is reached raises instead. *)
Theorem get_chat_no_match chats recipient :
  (get_chat lower chats recipient = Returned None ↔
   Forall (λ c, Forall (is_other lower recipient) (members c)) chats) ∧
  (∀ before c after ms1 m ms2,
     chats = before ++ c :: after →
     Forall (λ c, Forall (is_other lower recipient) (members c)) before →
     members c = ms1 ++ m :: ms2 →
     Forall (is_other lower recipient) ms1 →
     email m = None →
     get_chat lower chats recipient = AttributeError).
Proof.
  split; [apply get_chat_none|].
  intros before c after ms1 m ms2 -> Hbefore Hms Hall Hm.
  induction Hbefore as [|b before Hb Hbefore IH].
  - cbn [app get_chat]. rewrite Hms.
    assert (member_loop lower recipient (ms1 ++ m :: ms2) = AttributeError)
      as ->; [|done].
    clear Hms. induction Hall as [|m1 ms1 (e & He & Hne) Hall IH].
    + cbn [app member_loop]. by rewrite Hm.
    + cbn [app member_loop]. rewrite He. by rewrite decide_False.
  - cbn [app get_chat]. apply member_loop_false in Hb. by rewrite Hb.
Qed.

End chats.

Lemma get_chat_first_match_witness :
  get_chat ascii_lower sample_chats "BOB@example.org" = AttributeError ∧
  get_chat ascii_lower sample_chats "Ann@Example.ORG"
  = Returned (Some "19:first") ∧
  ∃ before c after ms1 m ms2,
    sample_chats = before ++ c :: after ∧ chat_id c = "19:first" ∧
    Forall (λ c, Forall (is_other ascii_lower "Ann@Example.ORG") (members c))
      before ∧
    members c = ms1 ++ m :: ms2 ∧
    Forall (is_other ascii_lower "Ann@Example.ORG") ms1 ∧
    is_recipient ascii_lower "Ann@Example.ORG" m.
Proof.
  assert (get_chat ascii_lower sample_chats "Ann@Example.ORG"
          = Returned (Some "19:first")) as Hann by (vm_compute; reflexivity).
  split_and!; [vm_compute; reflexivity|exact Hann|].
  by apply (get_chat_first_match ascii_lower sample_chats).
Defined.

Lemma get_chat_no_match_witness :
  get_chat ascii_lower sample_chats "carl@example.org" = AttributeError ∧
  get_chat ascii_lower [mkchat "19:second" [mkmember (Some "bob@example.org")]]
    "carl@example.org" = Returned None.
Proof.
  destruct (get_chat_no_match ascii_lower
              [mkchat "19:second" [mkmember (Some "bob@example.org")]]
              "carl@example.org") as [Hnone _].
  destruct (get_chat_no_match ascii_lower sample_chats "carl@example.org")
    as [_ Hraise].
  split.
  - apply (Hraise [] (mkchat "19:first"
                        [mkmember (Some "ann@example.org"); mkmember None])
             [mkchat "19:second" [mkmember (Some "Bob@Example.org");
                                  mkmember (Some "ann@example.org")]]
             [mkmember (Some "ann@example.org")] (mkmember None) []);
      [reflexivity|constructor|reflexivity| |reflexivity].
    repeat constructor. exists "ann@example.org". split; [done|].
    vm_compute. discriminate.
  - apply Hnone. repeat constructor. exists "bob@example.org".
    split; [done|]. vm_compute. discriminate.
Defined.

End notification_claims.
